(** * FieldTrack Pro: the dashboard aggregation, the visit form and the login check

    A shallow embedding of the TypeScript sources:
    - the data model of [types.ts];
    - [stats], [workerStats] and [filteredVisits] of the AdminDashboard
      component;
    - [validatePhones] and [handleSubmit] of the VisitForm component;
    - [handleAuth] of the Login component and [validation] and
      [handleRegister] of the Register component.

    Conventions of the model.
    - A JavaScript string is a [string] of 8-bit code units holding ASCII
      text: [toLowerCase] folds 'A'..'Z', [trim] strips the ASCII white space
      (tab, line feed, vertical tab, form feed, carriage return, space).
    - A JavaScript [number] is an integer [Z] (amounts in whole rupees);
      the only falsy number is then [0].
    - An optional or nullable field ([f?: T], [T | null]) is an [option].
    - The hosted store is a record of tables; what the network answers during
      one handler run is an explicit argument of the handler.
    - The filter text the handlers hand to [.or(...)] is built exactly as
      the source builds it, typed text pasted in as it is; how the store
      reads such a text is an operation of the class [Postgrest], of which
      only the reading of comma-separated [column.eq.value] conditions over
      plain values is assumed. *)

From Stdlib Require Import List String Ascii ZArith Bool Arith Lia.
Import ListNotations.
Local Open Scope string_scope.
Local Open Scope Z_scope.

Set Implicit Arguments.

(** ** JavaScript strings *)

Module Js.

Definition is_upper (c : ascii) : bool :=
  let n := nat_of_ascii c in ((65 <=? n) && (n <=? 90))%nat.

Definition lower_char (c : ascii) : ascii :=
  if is_upper c then ascii_of_nat (nat_of_ascii c + 32) else c.

(** [String.prototype.toLowerCase] *)
Fixpoint toLowerCase (s : string) : string :=
  match s with
  | EmptyString => EmptyString
  | String c r => String (lower_char c) (toLowerCase r)
  end.

Definition is_space (c : ascii) : bool :=
  let n := nat_of_ascii c in
  ((n =? 32) || ((9 <=? n) && (n <=? 13)))%nat.

Fixpoint trimStart (s : string) : string :=
  match s with
  | EmptyString => EmptyString
  | String c r => if is_space c then trimStart r else s
  end.

Fixpoint trimEnd (s : string) : string :=
  match s with
  | EmptyString => EmptyString
  | String c r =>
      match trimEnd r with
      | EmptyString => if is_space c then EmptyString else String c EmptyString
      | r' => String c r'
      end
  end.

(** [String.prototype.trim] *)
Definition trim (s : string) : string := trimEnd (trimStart s).

(** [hay.includes(needle)]: [needle] occurs in [hay] as a substring. *)
Fixpoint includes (hay needle : string) : bool :=
  String.prefix needle hay ||
  match hay with
  | EmptyString => false
  | String _ r => includes r needle
  end.

(** Truthiness of a string, of an optional string and of a number. *)
Definition truthy (s : string) : bool :=
  match s with EmptyString => false | _ => true end.

Definition truthy_opt (o : option string) : bool :=
  match o with Some s => truthy s | None => false end.

(** [s || d] on strings and [n || 0] on numbers. *)
Definition or_str (s d : string) : string := if truthy s then s else d.
Definition or_num (n d : Z) : Z := if n =? 0 then d else n.

End Js.

(** ** Data model ([types.ts]) *)

Inductive VisitStatus := follow_up | converted | rejected.

Definition status_eqb (a b : VisitStatus) : bool :=
  match a, b with
  | follow_up, follow_up | converted, converted | rejected, rejected => true
  | _, _ => false
  end.

(** The string a status is in the source ('follow_up', ...). *)
Definition status_str (s : VisitStatus) : string :=
  match s with
  | follow_up => "follow_up"
  | converted => "converted"
  | rejected => "rejected"
  end.

Inductive UserRole := WORKER | ADMIN.

Definition role_eqb (a b : UserRole) : bool :=
  match a, b with
  | WORKER, WORKER | ADMIN, ADMIN => true
  | _, _ => false
  end.

Inductive ActivityType :=
  created | updated | status_changed | follow_up_added | assigned.

Record VisitActivity := {
  va_id : option string;          (* assigned by the store *)
  visit_id : string;
  action_type : ActivityType;
  field_name : option string;
  old_value : option string;
  new_value : option string;
  note : string;
  performed_by : string;
  va_created_at : option string   (* assigned by the store *)
}.

Record FieldVisit := {
  id : option string;
  created_at : option string;
  worker_name : string;
  worker_phone : option string;
  client_name : string;
  client_type : string;
  client_phone : option string;
  client_email : option string;
  address : option string;
  landmark : string;
  requirements : option string;
  budget : Z;
  status : VisitStatus;
  follow_up_at : option string;
  rejection_reason : option string;
  latitude : option Z;
  longitude : option Z;
  photo_url : option string
}.

Record LocationState := {
  loc_latitude : option Z;
  loc_longitude : option Z;
  loc_loading : bool;
  loc_error : option string
}.

Record UserProfile := {
  user_id : string;
  name : string;
  role : UserRole;
  mobile : string;
  email : string;
  password_hash : string;
  is_active : bool;
  user_created_at : string
}.

(** ** AdminDashboard: the status tally *)

Record Stats := {
  st_follow_up : nat;
  st_converted : nat;
  st_rejected : nat;
  total_revenue : Z;
  st_total : nat
}.

Definition has_status (s : VisitStatus) (v : FieldVisit) : bool :=
  status_eqb (status v) s.

(** [visits.filter(...)] three times, [reduce] over the converted ones. *)
Definition stats (visits : list FieldVisit) : Stats :=
  let followUpVisits := filter (has_status follow_up) visits in
  let convertedVisits := filter (has_status converted) visits in
  let rejectedVisits := filter (has_status rejected) visits in
  {| st_follow_up := List.length followUpVisits;
     st_converted := List.length convertedVisits;
     st_rejected := List.length rejectedVisits;
     total_revenue :=
       fold_left (fun acc curr => acc + Js.or_num (budget curr) 0)
                 convertedVisits 0;
     st_total := List.length visits |}.

(** The revenue as the specification words it: the sum of [budget] over the
    records whose status is [converted], the other records contributing
    nothing. *)
Fixpoint converted_budget_sum (visits : list FieldVisit) : Z :=
  match visits with
  | [] => 0
  | v :: rest =>
      match status v with
      | converted => budget v + converted_budget_sum rest
      | _ => converted_budget_sum rest
      end
  end.

(** Replacing the budget of one record. *)
Definition with_budget (v : FieldVisit) (b : Z) : FieldVisit :=
  {| id := id v; created_at := created_at v;
     worker_name := worker_name v; worker_phone := worker_phone v;
     client_name := client_name v; client_type := client_type v;
     client_phone := client_phone v; client_email := client_email v;
     address := address v; landmark := landmark v;
     requirements := requirements v; budget := b; status := status v;
     follow_up_at := follow_up_at v; rejection_reason := rejection_reason v;
     latitude := latitude v; longitude := longitude v;
     photo_url := photo_url v |}.

(** [visits] with the record at index [i] replaced by [v'] (no change when
    [i] is out of range). *)
Fixpoint replace_at (i : nat) (v' : FieldVisit) (visits : list FieldVisit)
  : list FieldVisit :=
  match visits, i with
  | [], _ => []
  | _ :: rest, O => v' :: rest
  | v :: rest, S j => v :: replace_at j v' rest
  end.

(** ** AdminDashboard: the per-worker rollup *)

Record WorkerStat := {
  ws_name : string;
  ws_total : nat;
  ws_converted : nat;
  ws_follow_up : nat;
  ws_rejected : nat;
  ws_phone : option string
}.

(** A JavaScript [Map<string, _>]: keys in insertion order, each key once. *)
Module JsMap.

Definition t := list (string * WorkerStat).

Definition empty : t := [].

Fixpoint get (k : string) (m : t) : option WorkerStat :=
  match m with
  | [] => None
  | (k', s) :: rest => if String.eqb k' k then Some s else get k rest
  end.

Definition has (k : string) (m : t) : bool :=
  match get k m with Some _ => true | None => false end.

(** [map.set(k, s)]: an existing key keeps its place, a new key goes last. *)
Fixpoint set (k : string) (s : WorkerStat) (m : t) : t :=
  match m with
  | [] => [(k, s)]
  | (k', s') :: rest =>
      if String.eqb k' k then (k', s) :: rest else (k', s') :: set k s rest
  end.

Definition keys (m : t) : list string := map fst m.
Definition values (m : t) : list WorkerStat := map snd m.

End JsMap.

(** [v.worker_name || 'Unknown'] and the key derived from it. *)
Definition originalName (v : FieldVisit) : string :=
  Js.or_str (worker_name v) "Unknown".

Definition normalizedKey (v : FieldVisit) : string :=
  Js.toLowerCase (Js.trim (originalName v)).

(** The statements of the [forEach] body that mutate the entry [s]. *)
Definition bump (v : FieldVisit) (s : WorkerStat) : WorkerStat :=
  let total := S (ws_total s) in
  let conv := match status v with converted => S (ws_converted s) | _ => ws_converted s end in
  let fol := match status v with follow_up => S (ws_follow_up s) | _ => ws_follow_up s end in
  let rej := match status v with rejected => S (ws_rejected s) | _ => ws_rejected s end in
  let phone :=
    if negb (Js.truthy_opt (ws_phone s)) && Js.truthy_opt (worker_phone v)
    then worker_phone v else ws_phone s in
  {| ws_name := ws_name s; ws_total := total; ws_converted := conv;
     ws_follow_up := fol; ws_rejected := rej; ws_phone := phone |}.

(** One iteration of [visits.forEach]. The entry object lives in the map, so
    the mutations of [s] are written back under its key. *)
Definition worker_step (m : JsMap.t) (v : FieldVisit) : JsMap.t :=
  let key := normalizedKey v in
  let m1 :=
    if negb (JsMap.has key m)
    then JsMap.set key
           {| ws_name := Js.trim (originalName v); ws_total := 0;
              ws_converted := 0; ws_follow_up := 0; ws_rejected := 0;
              ws_phone := worker_phone v |} m
    else m in
  match JsMap.get key m1 with
  | Some s => JsMap.set key (bump v s) m1
  | None => m1
  end.

Definition worker_map (visits : list FieldVisit) : JsMap.t :=
  fold_left worker_step visits JsMap.empty.

(** [Array.from(map.values())] *)
Definition workerStats (visits : list FieldVisit) : list WorkerStat :=
  JsMap.values (worker_map visits).

(** The records of one worker, in list order. *)
Definition group (k : string) (visits : list FieldVisit) : list FieldVisit :=
  filter (fun v => String.eqb (normalizedKey v) k) visits.

(** The first non-empty [worker_phone] of a list of records. *)
Fixpoint first_phone (g : list FieldVisit) : option string :=
  match g with
  | [] => None
  | v :: rest =>
      if Js.truthy_opt (worker_phone v) then worker_phone v
      else first_phone rest
  end.

Definition count_status (s : VisitStatus) (g : list FieldVisit) : nat :=
  List.length (filter (has_status s) g).

(** ** AdminDashboard: the table filter *)

Inductive StatusFilter := all | only (s : VisitStatus).

(** The callback of the search [filter], [s] being the lower-cased term. *)
Definition search_hit (s : string) (v : FieldVisit) : bool :=
  Js.includes (Js.toLowerCase (client_name v)) s
  || Js.includes (Js.toLowerCase (worker_name v)) s
  || match client_phone v with
     | Some p => Js.truthy p && Js.includes p s
     | None => false
     end
  || match client_email v with
     | Some e => Js.truthy e && Js.includes (Js.toLowerCase e) s
     | None => false
     end.

Definition filteredVisits (visits : list FieldVisit)
    (statusFilter : StatusFilter) (search : string) : list FieldVisit :=
  let res := visits in
  let res :=
    match statusFilter with
    | all => res
    | only st => filter (fun v => status_eqb (status v) st) res
    end in
  let res :=
    if Js.truthy search
    then let s := Js.toLowerCase search in filter (search_hit s) res
    else res in
  res.

(** The selection as the specification words it. *)
Definition status_selected (sel : StatusFilter) (v : FieldVisit) : bool :=
  match sel with all => true | only st => status_eqb (status v) st end.

(** [field] contains [term], letter case ignored on both sides. *)
Definition contains_ci (field term : string) : bool :=
  Js.includes (Js.toLowerCase field) (Js.toLowerCase term).

Definition contains_ci_opt (field : option string) (term : string) : bool :=
  match field with Some f => contains_ci f term | None => false end.

(** [field] as stored contains the lower-cased [term]. *)
Definition contains_folded_term (field : option string) (term : string) : bool :=
  match field with Some f => Js.includes f (Js.toLowerCase term) | None => false end.

(** Every one of the four fields compared without regard to case. *)
Definition spec_selected (sel : StatusFilter) (search : string)
    (v : FieldVisit) : bool :=
  status_selected sel v
  && match search with
     | EmptyString => true
     | _ => contains_ci (client_name v) search
            || contains_ci (worker_name v) search
            || contains_ci_opt (client_phone v) search
            || contains_ci_opt (client_email v) search
     end.

(** As [spec_selected], but the phone as stored compared with the
    lower-cased term, the way [filteredVisits] compares it. *)
Definition stored_phone_selected (sel : StatusFilter) (search : string)
    (v : FieldVisit) : bool :=
  status_selected sel v
  && match search with
     | EmptyString => true
     | _ => contains_ci (client_name v) search
            || contains_ci (worker_name v) search
            || contains_folded_term (client_phone v) search
            || contains_ci_opt (client_email v) search
     end.

(** ** The hosted store and the handlers' effects *)

Record File := { file_name : string; file_content : string }.

Record World := {
  tbl_visits : list FieldVisit;               (* table 'visits' *)
  tbl_visit_activities : list VisitActivity;  (* table 'visit_activities' *)
  tbl_users : list UserProfile;               (* table 'users' *)
  bucket : list (string * File);              (* storage bucket, by path *)
  console : list string                       (* lines of console.error/info *)
}.

(** What a supabase call resolves to: the client never rejects, it answers
    with [data] or with [error]. *)
Record Response (A : Type) := { data : option A; error : option string }.

(** A handler body: it threads the world and may [throw]. *)
Inductive Exn (A : Type) := Return (a : A) | Throw (message : string).
Arguments Return {A} a.
Arguments Throw {A} message.

Definition M (A : Type) : Type := World -> Exn A * World.

Definition ret {A} (a : A) : M A := fun w => (Return a, w).
Definition throw {A} (message : string) : M A := fun w => (Throw message, w).
Definition bind {A B} (m : M A) (k : A -> M B) : M B :=
  fun w =>
    match m w with
    | (Return a, w') => k a w'
    | (Throw e, w') => (Throw e, w')
    end.

Notation "x <- m ;; k" := (bind m (fun x => k))
  (at level 61, m at next level, right associativity).
Notation "m ;;; k" := (bind m (fun _ => k))
  (at level 61, right associativity).

Definition supabaseUrl : string := "https://jcevnfiughtkjnyefkvn.supabase.co".
Definition BUCKET_NAME : string := "visit-photos".

(** ** The store's or-filter *)

(** The handlers paste what the user typed into the text of an or-filter
    ([`email.eq.${cleanId}`], [`mobile.eq.${cleanMobile}`]) and the hosted
    store parses that text. The store's filter language is not part of this
    repository: its evaluation is an operation of the class [Postgrest], and
    what is known of it is stated by [lawful], for the filters that are
    comma-separated lists of [column.eq.value] conditions over unquoted
    values. *)

(** The columns of 'users' that a condition of such a filter names here. *)
Inductive Column := col_email | col_mobile | col_role.

Definition column_name (c : Column) : string :=
  match c with
  | col_email => "email"
  | col_mobile => "mobile"
  | col_role => "role"
  end.

(** The string a role is in the store ('worker', 'admin'). *)
Definition role_str (r : UserRole) : string :=
  match r with WORKER => "worker" | ADMIN => "admin" end.

Definition column_text (c : Column) (u : UserProfile) : string :=
  match c with
  | col_email => email u
  | col_mobile => mobile u
  | col_role => role_str (role u)
  end.

(** Letters, digits and [@ . _ -]: characters the filter grammar gives no
    meaning to. *)
Definition plain_char (c : ascii) : bool :=
  let n := nat_of_ascii c in
  (((48 <=? n) && (n <=? 57)) || ((65 <=? n) && (n <=? 90))
   || ((97 <=? n) && (n <=? 122))
   || (n =? 64) || (n =? 46) || (n =? 95) || (n =? 45))%nat.

Fixpoint plain (v : string) : bool :=
  match v with
  | EmptyString => true
  | String c r => plain_char c && plain r
  end.

(** A condition [column.eq.value] with a plain value; a null email being
    held as the empty string, the empty value is left out for that column. *)
Definition cond_ok (cv : Column * string) : bool :=
  plain (snd cv)
  && match fst cv with col_email => Js.truthy (snd cv) | _ => true end.

(** The text of a list of conditions: [c1.eq.v1,c2.eq.v2,...]. *)
Fixpoint render (conds : list (Column * string)) : string :=
  match conds with
  | [] => EmptyString
  | [(c, v)] => column_name c ++ ".eq." ++ v
  | (c, v) :: rest => column_name c ++ ".eq." ++ v ++ "," ++ render rest
  end.

Definition cond_holds (u : UserProfile) (cv : Column * string) : bool :=
  String.eqb (column_text (fst cv) u) (snd cv).

(** The store's evaluation of the text of an or-filter over the rows of
    'users': the rows selected, or [None] when the store refuses the
    request. *)
Class Postgrest := {
  or_filter : string -> list UserProfile -> option (list UserProfile)
}.

(** What is known of it: it returns rows of the table, and a non-empty list
    of eq-conditions on plain values selects, in table order, the rows that
    satisfy one of them. *)
Definition lawful (S : Postgrest) : Prop :=
  (forall filters rows l,
     or_filter filters rows = Some l -> forall u, In u l -> In u rows)
  /\ (forall conds rows,
        conds <> [] -> forallb cond_ok conds = true ->
        or_filter (render conds) rows
        = Some (filter (fun u => existsb (cond_holds u) conds) rows)).

Module Supabase.

(** [storage.from(BUCKET_NAME).upload(path, file)], answering its error. *)
Definition upload (fault : option string) (path : string) (f : File)
  : M (option string) :=
  fun w =>
    match fault with
    | Some e => (Return (Some e), w)
    | None =>
        (Return None,
         {| tbl_visits := tbl_visits w;
            tbl_visit_activities := tbl_visit_activities w;
            tbl_users := tbl_users w;
            bucket := (path, f) :: bucket w;
            console := console w |})
    end.

Definition getPublicUrl (path : string) : string :=
  supabaseUrl ++ "/storage/v1/object/public/" ++ BUCKET_NAME ++ "/" ++ path.

Definition set_visits (rows : list FieldVisit) (w : World) : World :=
  {| tbl_visits := rows;
     tbl_visit_activities := tbl_visit_activities w;
     tbl_users := tbl_users w;
     bucket := bucket w;
     console := console w |}.

Definition set_activities (rows : list VisitActivity) (w : World) : World :=
  {| tbl_visits := tbl_visits w;
     tbl_visit_activities := rows;
     tbl_users := tbl_users w;
     bucket := bucket w;
     console := console w |}.

(** The columns of [vd] under the [id] and [created_at] of a stored row:
    these two are not among the columns the form writes. *)
Definition keyed (i c : option string) (vd : FieldVisit) : FieldVisit :=
  {| id := i; created_at := c;
     worker_name := worker_name vd; worker_phone := worker_phone vd;
     client_name := client_name vd; client_type := client_type vd;
     client_phone := client_phone vd; client_email := client_email vd;
     address := address vd; landmark := landmark vd;
     requirements := requirements vd; budget := budget vd;
     status := status vd; follow_up_at := follow_up_at vd;
     rejection_reason := rejection_reason vd;
     latitude := latitude vd; longitude := longitude vd;
     photo_url := photo_url vd |}.

Definition merge (row vd : FieldVisit) : FieldVisit :=
  keyed (id row) (created_at row) vd.

Definition id_is (row_id : string) (row : FieldVisit) : bool :=
  match id row with Some i => String.eqb i row_id | None => false end.

(** [from('visits').update(vd).eq('id', row_id)] *)
Definition update_visit (fault : option string) (vd : FieldVisit)
    (row_id : string) : M (option string) :=
  fun w =>
    match fault with
    | Some e => (Return (Some e), w)
    | None =>
        (Return None,
         set_visits
           (map (fun row => if id_is row_id row then merge row vd else row)
                (tbl_visits w)) w)
    end.

(** The row the store makes of an inserted record. *)
Definition stored (fresh_id now : string) (vd : FieldVisit) : FieldVisit :=
  keyed (Some fresh_id) (Some now) vd.

(** [from('visits').insert([vd]).select()] *)
Definition insert_visit (fault : option string) (fresh_id now : string)
    (vd : FieldVisit) : M (Response (list FieldVisit)) :=
  fun w =>
    match fault with
    | Some e => (Return {| data := None; error := Some e |}, w)
    | None =>
        let row := stored fresh_id now vd in
        (Return {| data := Some [row]; error := None |},
         set_visits (tbl_visits w ++ [row]) w)
    end.

(** [from('visit_activities').insert([a])] *)
Definition insert_activity (fault : option string) (fresh_id now : string)
    (a : VisitActivity) : M (Response unit) :=
  fun w =>
    match fault with
    | Some e => (Return {| data := None; error := Some e |}, w)
    | None =>
        let row :=
          {| va_id := Some fresh_id; visit_id := visit_id a;
             action_type := action_type a; field_name := field_name a;
             old_value := old_value a; new_value := new_value a;
             note := note a; performed_by := performed_by a;
             va_created_at := Some now |} in
        (Return {| data := None; error := None |},
         set_activities (tbl_visit_activities w ++ [row]) w)
    end.

(** [from('users').select('*').or(filters)]: a refused request is answered
    with an error. *)
Definition select_users {S : Postgrest} (fault : option string)
    (filters : string) : M (Response (list UserProfile)) :=
  fun w =>
    match fault with
    | Some e => (Return {| data := None; error := Some e |}, w)
    | None =>
        match or_filter filters (tbl_users w) with
        | Some rows => (Return {| data := Some rows; error := None |}, w)
        | None => (Return {| data := None; error := Some "Bad Request" |}, w)
        end
    end.

End Supabase.

(** ** VisitForm *)

(** The form state: a visit without coordinates and photo. *)
Record FormData := {
  fd_worker_name : string;
  fd_worker_phone : option string;
  fd_client_name : string;
  fd_client_type : string;
  fd_client_phone : option string;
  fd_client_email : option string;
  fd_landmark : string;
  fd_requirements : option string;
  fd_budget : Z;
  fd_status : VisitStatus;
  fd_follow_up_at : option string;
  fd_rejection_reason : option string
}.

Record PhoneErrors := {
  err_worker_phone : option string;
  err_client_phone : option string
}.

Definition bad_phone (p : option string) : bool :=
  match p with
  | Some s => Js.truthy s && negb (Nat.eqb (String.length s) 10)
  | None => false
  end.

(** [validatePhones]: the errors it sets and the flag it returns. *)
Definition validatePhones (formData : FormData) : PhoneErrors * bool :=
  let e1 := if bad_phone (fd_worker_phone formData)
            then Some "10 digits required" else None in
  let e2 := if bad_phone (fd_client_phone formData)
            then Some "10 digits required" else None in
  ({| err_worker_phone := e1; err_client_phone := e2 |},
   negb (bad_phone (fd_worker_phone formData))
   && negb (bad_phone (fd_client_phone formData))).

(** [photo.name.split('.').pop()] *)
Fixpoint file_ext (s : string) : string :=
  match s with
  | EmptyString => EmptyString
  | String c r =>
      if Js.includes r "." then file_ext r
      else if Ascii.eqb c "."%char then r else s
  end.

(** What the outside answers during one submission. *)
Record Network := {
  now : string;                   (* Date.now(), printed *)
  random_tag : string;            (* Math.random().toString(36).substring(7) *)
  upload_fault : option string;
  visit_fault : option string;
  activity_fault : option string;
  visit_row_id : string;          (* id the store gives an inserted visit *)
  activity_row_id : string        (* id the store gives an inserted entry *)
}.

(** The record the form writes: [visitData]. *)
Definition visitData (formData : FormData) (location : LocationState)
    (photo_url : option string) : FieldVisit :=
  {| id := None; created_at := None;
     worker_name := fd_worker_name formData;
     worker_phone := fd_worker_phone formData;
     client_name := fd_client_name formData;
     client_type := fd_client_type formData;
     client_phone := fd_client_phone formData;
     client_email := fd_client_email formData;
     address := Some EmptyString;
     landmark := fd_landmark formData;
     requirements := fd_requirements formData;
     budget := match fd_status formData with
               | converted => fd_budget formData
               | _ => 0
               end;
     status := fd_status formData;
     follow_up_at := match fd_status formData with
                     | follow_up => fd_follow_up_at formData
                     | _ => None
                     end;
     rejection_reason := match fd_status formData with
                         | rejected => fd_rejection_reason formData
                         | _ => None
                         end;
     latitude := loc_latitude location;
     longitude := loc_longitude location;
     photo_url := photo_url |}.

(** The activity entry appended after a visit write. *)
Definition activity_entry (visit : string) (kind : ActivityType)
    (note_prefix : string) (formData : FormData) : VisitActivity :=
  {| va_id := None;
     visit_id := visit;
     action_type := kind;
     field_name := Some "status";
     old_value := None;
     new_value := Some (status_str (fd_status formData));
     note := note_prefix ++ status_str (fd_status formData);
     performed_by := fd_worker_name formData;
     va_created_at := None |}.

Definition or_null (o : option string) : option string :=
  if Js.truthy_opt o then o else None.

Definition id_text (row : FieldVisit) : string :=
  match id row with Some i => i | None => EmptyString end.

(** The [try] block of [handleSubmit]. *)
Definition submit_body (initialData : option FieldVisit) (formData : FormData)
    (location : LocationState) (photo : option File) (net : Network)
  : M unit :=
  let photo_url0 :=
    match initialData with
    | Some init => or_null (photo_url init)
    | None => None
    end in
  photo_url <-
    match photo with
    | Some p =>
        let fileExt := file_ext (file_name p) in
        let fileName := now net ++ "_" ++ random_tag net ++ "." ++ fileExt in
        let filePath := "visits/" ++ fileName in
        uploadError <- Supabase.upload (upload_fault net) filePath p ;;
        match uploadError with
        | None => ret (Some (Supabase.getPublicUrl filePath))
        | Some _ => ret photo_url0
        end
    | None => ret photo_url0
    end ;;
  let vd := visitData formData location photo_url in
  let update_id :=
    match initialData with
    | Some init => or_null (id init)
    | None => None
    end in
  match update_id with
  | Some row_id =>
      (* UPDATE Existing *)
      err <- Supabase.update_visit (visit_fault net) vd row_id ;;
      match err with
      | Some e => throw e
      | None =>
          Supabase.insert_activity (activity_fault net)
            (activity_row_id net) (now net)
            (activity_entry row_id updated "Visit updated. Status: " formData) ;;;
          ret tt
      end
  | None =>
      (* CREATE New *)
      resp <- Supabase.insert_visit (visit_fault net) (visit_row_id net)
                (now net) vd ;;
      match error resp with
      | Some e => throw e
      | None =>
          match data resp with
          | Some (row :: _) =>
              Supabase.insert_activity (activity_fault net)
                (activity_row_id net) (now net)
                (activity_entry (id_text row) created
                   "New visit created with status: " formData) ;;;
              ret tt
          | _ => ret tt
          end
      end
  end.

Inductive MsgType := success | error_msg | warning.

Record FormView := {
  msg : option (MsgType * string);
  phoneErrors : option PhoneErrors;   (* [None]: left as they were *)
  onSuccess_scheduled : bool
}.

(** [handleSubmit]: what the form shows afterwards and the world it leaves. *)
Definition handleSubmit (initialData : option FieldVisit) (formData : FormData)
    (location : LocationState) (photo : option File) (net : Network)
    (w : World) : FormView * World :=
  let (errors, ok) := validatePhones formData in
  if negb ok
  then ({| msg := None; phoneErrors := Some errors;
           onSuccess_scheduled := false |}, w)
  else
    match submit_body initialData formData location photo net w with
    | (Return _, w') =>
        ({| msg := Some (success,
                         match initialData with
                         | Some _ => "Visit updated successfully!"
                         | None => "Visit recorded successfully!"
                         end);
            phoneErrors := Some errors;
            onSuccess_scheduled := true |}, w')
    | (Throw e, w') =>
        ({| msg := Some (error_msg, e); phoneErrors := Some errors;
            onSuccess_scheduled := false |}, w')
    end.

(** ** Login *)

Inductive Portal := portal_worker | portal_admin | portal_choice.

Inductive AuthView :=
| LoggedIn (r : UserRole) (user_name : string)   (* [onLogin(role, name)] *)
| AuthError (message : string).                  (* [setError(message)] *)

Definition not_found_msg : string := "Invalid credentials or account not found.".
Definition not_worker_msg : string :=
  "Access Denied: This account is not registered as a Field Worker.".
Definition not_admin_msg : string :=
  "Access Denied: Administrative privileges required.".
Definition suspended_msg : string :=
  "Account Suspended: Please contact your administrator.".
Definition bad_password_msg : string := "Incorrect password. Please try again.".

(** The verifications [handleAuth] runs on [data[0]]. *)
Definition verify (portal : Portal) (password : string) (user : UserProfile)
  : M (UserRole * string) :=
  (match portal, role user with
   | portal_worker, ADMIN => throw not_worker_msg
   | _, _ => ret tt
   end) ;;;
  (match portal, role user with
   | portal_admin, WORKER => throw not_admin_msg
   | _, _ => ret tt
   end) ;;;
  (if negb (is_active user) then throw suspended_msg else ret tt) ;;;
  (if negb (String.eqb (password_hash user) password)
   then throw bad_password_msg else ret tt) ;;;
  ret (role user, name user).

(** The [try] block of [handleAuth]. *)
Definition auth_body {S : Postgrest} (portal : Portal)
    (identifier password : string) (fetch_fault : option string)
  : M (UserRole * string) :=
  let cleanId := Js.toLowerCase (Js.trim identifier) in
  let isEmail := Js.includes cleanId "@" in
  resp <- Supabase.select_users fetch_fault
            (if isEmail then "email.eq." ++ cleanId
             else "mobile.eq." ++ cleanId) ;;
  match error resp, data resp with
  | None, Some (user :: _) => verify portal password user
  | _, _ => throw not_found_msg
  end.

Definition handleAuth {S : Postgrest} (portal : Portal)
    (identifier password : string) (fetch_fault : option string) (w : World)
  : AuthView * World :=
  match auth_body portal identifier password fetch_fault w with
  | (Return (r, n), w') => (LoggedIn r n, w')
  | (Throw e, w') =>
      (AuthError (Js.or_str e "Login failed. Please check your connection."), w')
  end.

(** The rows the lookup of a login returns, in the order returned (none
    when the store refuses the filter). *)
Definition matching_accounts {S : Postgrest} (identifier : string) (w : World)
  : list UserProfile :=
  let cleanId := Js.toLowerCase (Js.trim identifier) in
  match or_filter (if Js.includes cleanId "@" then "email.eq." ++ cleanId
                   else "mobile.eq." ++ cleanId) (tbl_users w) with
  | Some rows => rows
  | None => []
  end.

(** The accounts whose email (for an identifier with an at sign) or mobile
    equals the cleaned identifier. *)
Definition accounts_of (identifier : string) (w : World) : list UserProfile :=
  let cleanId := Js.toLowerCase (Js.trim identifier) in
  filter (fun u => if Js.includes cleanId "@"
                   then String.eqb (email u) cleanId
                   else String.eqb (mobile u) cleanId)
         (tbl_users w).

(** What the verifications answer for one account. *)
Definition verdict (portal : Portal) (password : string) (user : UserProfile)
  : AuthView :=
  match portal, role user with
  | portal_worker, ADMIN => AuthError not_worker_msg
  | portal_admin, WORKER => AuthError not_admin_msg
  | _, _ =>
      if negb (is_active user) then AuthError suspended_msg
      else if negb (String.eqb (password_hash user) password)
           then AuthError bad_password_msg
           else LoggedIn (role user) (name user)
  end.

(** ** Sample data and derived predicates *)

(** The scenario of the specification: one converted visit of 500, one
    follow-up and one rejected visit. *)
Definition blank_visit (st : VisitStatus) (b : Z) : FieldVisit :=
  {| id := None; created_at := None; worker_name := EmptyString; worker_phone := None;
     client_name := EmptyString; client_type := EmptyString; client_phone := None;
     client_email := None; address := None; landmark := EmptyString;
     requirements := None; budget := b; status := st; follow_up_at := None;
     rejection_reason := None; latitude := None; longitude := None;
     photo_url := None |}.

Definition scenario : list FieldVisit :=
  [blank_visit converted 500; blank_visit follow_up 0; blank_visit rejected 0].

(** The predicate the two [filter] passes amount to. *)
Definition kept (sel : StatusFilter) (search : string) (v : FieldVisit) : bool :=
  status_selected sel v
  && (if Js.truthy search then search_hit (Js.toLowerCase search) v else true).

(** A record whose client phone holds a capital letter. *)
Definition lettered_phone : FieldVisit :=
  {| id := Some "v1"; created_at := None; worker_name := "Ravi";
     worker_phone := None; client_name := "Sunrise School";
     client_type := "School"; client_phone := Some "98765X4321";
     client_email := None; address := None; landmark := EmptyString;
     requirements := None; budget := 0; status := follow_up;
     follow_up_at := None; rejection_reason := None; latitude := None;
     longitude := None; photo_url := None |}.

(** ** The rollup, group by group *)

(** The phone an entry ends with: the first non-empty one of the group, else
    whatever the first record carried. *)
Definition group_phone (g : list FieldVisit) : option string :=
  match first_phone g with
  | Some p => Some p
  | None => match g with v0 :: _ => worker_phone v0 | [] => None end
  end.

(** The entry of a group of records, [None] for the empty group. *)
Definition entry_of (g : list FieldVisit) : option WorkerStat :=
  match g with
  | [] => None
  | v0 :: _ =>
      Some {| ws_name := Js.trim (originalName v0);
              ws_total := List.length g;
              ws_converted := count_status converted g;
              ws_follow_up := count_status follow_up g;
              ws_rejected := count_status rejected g;
              ws_phone := group_phone g |}
  end.

(** The entry [worker_step] creates for a key it has not seen. *)
Definition fresh_entry (v : FieldVisit) : WorkerStat :=
  {| ws_name := Js.trim (originalName v); ws_total := 0;
     ws_converted := 0; ws_follow_up := 0; ws_rejected := 0;
     ws_phone := worker_phone v |}.

(** A record of a given worker, status and phone. *)
Definition worker_visit (w : string) (st : VisitStatus) (phone : option string)
  : FieldVisit :=
  {| id := None; created_at := None; worker_name := w; worker_phone := phone;
     client_name := "Acme"; client_type := "Corp"; client_phone := None;
     client_email := None; address := None; landmark := EmptyString;
     requirements := None; budget := 0; status := st; follow_up_at := None;
     rejection_reason := None; latitude := None; longitude := None;
     photo_url := None |}.

Definition janes : list FieldVisit :=
  [worker_visit "Jane" follow_up (Some EmptyString);
   worker_visit " jane " converted (Some "9876543210");
   worker_visit "JANE" rejected (Some "9000000000")].

(** ** The writer's invariant and the outcome of a submission *)

Definition is_null {A} (o : option A) : bool :=
  match o with None => true | Some _ => false end.

(** [follow_up_at] is null unless the status is follow_up, [budget] is 0
    unless it is converted, [rejection_reason] is null unless it is
    rejected. *)
Definition status_exclusive (v : FieldVisit) : bool :=
  (status_eqb (status v) follow_up || is_null (follow_up_at v))
  && (status_eqb (status v) converted || (budget v =? 0))
  && (status_eqb (status v) rejected || is_null (rejection_reason v)).

(** The row a submission updates, if it is an update. *)
Definition update_target (initialData : option FieldVisit) : option string :=
  match initialData with
  | Some init => or_null (id init)
  | None => None
  end.

(** The [photo_url] a submission ends up writing. *)
Definition written_photo_url (initialData : option FieldVisit)
    (photo : option File) (net : Network) : option string :=
  let kept_url :=
    match initialData with
    | Some init => or_null (photo_url init)
    | None => None
    end in
  match photo, upload_fault net with
  | Some p, None =>
      Some (Supabase.getPublicUrl
              ("visits/" ++ now net ++ "_" ++ random_tag net ++ "."
               ++ file_ext (file_name p)))
  | _, _ => kept_url
  end.

(** The table 'visits' once the visit write of a submission is committed. *)
Definition committed_visits (initialData : option FieldVisit)
    (vd : FieldVisit) (net : Network) (rows : list FieldVisit)
  : list FieldVisit :=
  match update_target initialData with
  | Some row_id =>
      map (fun row => if Supabase.id_is row_id row
                      then Supabase.merge row vd else row) rows
  | None => (rows ++ [Supabase.stored (visit_row_id net) (now net) vd])%list
  end.

(** The append failure left a trace on the console. *)
Definition append_failure_logged (before after : World) : Prop :=
  (List.length (console before) < List.length (console after))%nat.

Definition empty_world : World :=
  {| tbl_visits := []; tbl_visit_activities := []; tbl_users := [];
     bucket := []; console := [] |}.

Definition sample_form : FormData :=
  {| fd_worker_name := "Ravi"; fd_worker_phone := Some "9876543210";
     fd_client_name := "Sunrise School"; fd_client_type := "School";
     fd_client_phone := Some EmptyString; fd_client_email := Some EmptyString;
     fd_landmark := "Main road"; fd_requirements := Some EmptyString;
     fd_budget := 750; fd_status := follow_up;
     fd_follow_up_at := Some "2026-01-10T09:30";
     fd_rejection_reason := Some "too costly" |}.

Definition sample_location : LocationState :=
  {| loc_latitude := None; loc_longitude := None; loc_loading := false;
     loc_error := None |}.

(** The visit write goes through, the activity append does not. *)
Definition append_fails : Network :=
  {| now := "1767000000000"; random_tag := "k3x9q"; upload_fault := None;
     visit_fault := None; activity_fault := Some "Failed to fetch";
     visit_row_id := "v-1"; activity_row_id := "a-1" |}.

Definition worker_account : UserProfile :=
  {| user_id := "u-1"; name := "Ravi"; role := WORKER;
     mobile := "9876543210"; email := "ravi@fieldtrack.pro";
     password_hash := "secret1"; is_active := true;
     user_created_at := "2026-01-01" |}.

Definition admin_account : UserProfile :=
  {| user_id := "u-2"; name := "Asha"; role := ADMIN;
     mobile := EmptyString; email := "asha@fieldtrack.pro";
     password_hash := "secret2"; is_active := true;
     user_created_at := "2026-01-02" |}.

Definition two_accounts : World :=
  {| tbl_visits := []; tbl_visit_activities := [];
     tbl_users := [worker_account; admin_account];
     bucket := []; console := [] |}.

(** ** AdminDashboard: the worker profile *)

(** The keys of a list of records, each once, in order of first appearance. *)
Fixpoint first_keys (visits : list FieldVisit) : list string :=
  match visits with
  | [] => []
  | v :: rest =>
      normalizedKey v
      :: filter (fun k => negb (String.eqb k (normalizedKey v)))
                (first_keys rest)
  end.

(** The per-status counter of an entry. *)
Definition ws_count (st : VisitStatus) (s : WorkerStat) : nat :=
  match st with
  | follow_up => ws_follow_up s
  | converted => ws_converted s
  | rejected => ws_rejected s
  end.

(** A counter of the entries, added up over the map. *)
Definition sum_over (f : WorkerStat -> nat) (m : JsMap.t) : nat :=
  list_sum (map f (JsMap.values m)).

(** [workerStats.find(w => w.name === selectedWorker)] *)
Definition selectedStats (visits : list FieldVisit) (selectedWorker : string)
  : option WorkerStat :=
  find (fun w => String.eqb (ws_name w) selectedWorker) (workerStats visits).

(** The "Total Visits" box: [selectedStats?.total || 0]. *)
Definition profile_total (visits : list FieldVisit) (selectedWorker : string)
  : nat :=
  match selectedStats visits selectedWorker with
  | Some w => ws_total w
  | None => 0
  end.

(** The "Recent Assignments" list of the selected worker:
    [visits.filter(v => (v.worker_name || '').trim().toLowerCase()
                        === selectedWorker.toLowerCase()).slice(0, 5)]. *)
Definition recentAssignments (visits : list FieldVisit)
    (selectedWorker : string) : list FieldVisit :=
  firstn 5
    (filter (fun v =>
               String.eqb
                 (Js.toLowerCase
                    (Js.trim (Js.or_str (worker_name v) EmptyString)))
                 (Js.toLowerCase selectedWorker))
            visits).

(** ** VisitForm: phone input and location capture *)

Definition is_digit (c : ascii) : bool :=
  let n := nat_of_ascii c in ((48 <=? n) && (n <=? 57))%nat.

(** [value.replace(/\D/g, '')] *)
Fixpoint strip_non_digits (value : string) : string :=
  match value with
  | EmptyString => EmptyString
  | String c r =>
      if is_digit c then String c (strip_non_digits r)
      else strip_non_digits r
  end.

(** [s.slice(0, n)] *)
Fixpoint slice0 (n : nat) (s : string) : string :=
  match n, s with
  | S m, String c r => String c (slice0 m r)
  | _, _ => EmptyString
  end.

Fixpoint all_digits (s : string) : bool :=
  match s with
  | EmptyString => true
  | String c r => is_digit c && all_digits r
  end.

(** What [handleInputChange] keeps of a value typed into a phone field. *)
Definition numericValue (value : string) : string :=
  slice0 10 (strip_non_digits value).

Inductive PhoneField := field_worker_phone | field_client_phone.

(** [handleInputChange] for [name === 'worker_phone' || name === 'client_phone']. *)
Definition handlePhoneInput (field : PhoneField) (value : string)
    (prev : FormData) : FormData :=
  {| fd_worker_name := fd_worker_name prev;
     fd_worker_phone := match field with
                        | field_worker_phone => Some (numericValue value)
                        | field_client_phone => fd_worker_phone prev
                        end;
     fd_client_name := fd_client_name prev;
     fd_client_type := fd_client_type prev;
     fd_client_phone := match field with
                        | field_client_phone => Some (numericValue value)
                        | field_worker_phone => fd_client_phone prev
                        end;
     fd_client_email := fd_client_email prev;
     fd_landmark := fd_landmark prev;
     fd_requirements := fd_requirements prev;
     fd_budget := fd_budget prev;
     fd_status := fd_status prev;
     fd_follow_up_at := fd_follow_up_at prev;
     fd_rejection_reason := fd_rejection_reason prev |}.

(** What the browser answers to a position request. *)
Inductive GeoAnswer :=
| geo_unsupported                 (* no [navigator.geolocation] *)
| geo_position (lat lng : Z)      (* the success callback *)
| geo_denied.                     (* the error callback *)

(** [captureLocation]: the location state once the request is settled. *)
Definition captureLocation (answer : GeoAnswer) (prev : LocationState)
  : LocationState :=
  let started :=
    {| loc_latitude := loc_latitude prev; loc_longitude := loc_longitude prev;
       loc_loading := true; loc_error := None |} in
  match answer with
  | geo_unsupported =>
      {| loc_latitude := loc_latitude started;
         loc_longitude := loc_longitude started;
         loc_loading := false;
         loc_error := Some "Geolocation not supported" |}
  | geo_position lat lng =>
      {| loc_latitude := Some lat; loc_longitude := Some lng;
         loc_loading := false; loc_error := None |}
  | geo_denied =>
      {| loc_latitude := loc_latitude started;
         loc_longitude := loc_longitude started;
         loc_loading := false;
         loc_error := Some "Permission denied" |}
  end.

(** ** Register *)

Record RegisterForm := {
  rf_name : string;
  rf_email : string;
  rf_mobile : string;
  rf_password : string;
  rf_confirmPassword : string
}.

(** [/^\d{10}$/.test(mobile)] *)
Definition ten_digits (mobile : string) : bool :=
  Nat.eqb (String.length mobile) 10 && all_digits mobile.

(** [validation]: the error list and [isValid]. *)
Definition validation (formData : RegisterForm) (selectedRole : UserRole)
  : list string * bool :=
  let errors : list string := [] in
  let errors :=
    if (String.length (Js.trim (rf_name formData)) <? 3)%nat
    then (errors ++ ["Full Name must be at least 3 characters"])%list
    else errors in
  let errors :=
    match selectedRole with
    | WORKER =>
        if negb (ten_digits (rf_mobile formData))
        then (errors ++ ["Mobile number must be exactly 10 digits"])%list
        else errors
    | ADMIN => errors
    end in
  let errors :=
    match selectedRole with
    | ADMIN =>
        if negb (Js.truthy (rf_email formData))
           || negb (Js.includes (rf_email formData) "@")
        then (errors ++ ["Valid corporate email required for admin access"])%list
        else errors
    | WORKER => errors
    end in
  let errors :=
    if (String.length (rf_password formData) <? 6)%nat
    then (errors ++ ["Password must be at least 6 characters"])%list
    else errors in
  let errors :=
    if negb (String.eqb (rf_password formData) (rf_confirmPassword formData))
    then (errors ++ ["Passwords do not match"])%list
    else errors in
  (errors, Nat.eqb (List.length errors) 0).

(** What the outside answers during one registration. *)
Record RegisterNetwork := {
  duplicate_fault : option string;   (* the duplicate query fails *)
  insert_fault : option string;      (* the insert fails *)
  user_row_id : string;              (* id the store gives the new account *)
  user_now : string                  (* its creation time *)
}.

Definition set_users (rows : list UserProfile) (w : World) : World :=
  {| tbl_visits := tbl_visits w;
     tbl_visit_activities := tbl_visit_activities w;
     tbl_users := rows;
     bucket := bucket w;
     console := console w |}.

(** [orConditions]: the text of the duplicate query. *)
Definition orConditions (cleanEmail cleanMobile : string) : string :=
  if Js.truthy cleanEmail
  then "email.eq." ++ cleanEmail ++ ",mobile.eq." ++ cleanMobile
  else "mobile.eq." ++ cleanMobile.

(** [from('users').select('id').or(orConditions).limit(1)] *)
Definition select_existing {S : Postgrest} (fault : option string)
    (filters : string) : M (Response (list string)) :=
  fun w =>
    match fault with
    | Some e => (Return {| data := None; error := Some e |}, w)
    | None =>
        match or_filter filters (tbl_users w) with
        | Some rows =>
            (Return {| data := Some (map user_id (firstn 1 rows));
                       error := None |}, w)
        | None => (Return {| data := None; error := Some "Bad Request" |}, w)
        end
    end.

(** An account with the cleaned mobile, or with the cleaned email when that
    is non-empty. *)
Definition same_identifiers (cleanEmail cleanMobile : string) (u : UserProfile)
  : bool :=
  if Js.truthy cleanEmail
  then String.eqb (email u) cleanEmail || String.eqb (mobile u) cleanMobile
  else String.eqb (mobile u) cleanMobile.

(** The rows the duplicate query of a registration returns (none when the
    store refuses the filter). *)
Definition existing_accounts {S : Postgrest} (formData : RegisterForm)
    (w : World) : list UserProfile :=
  match or_filter (orConditions (Js.toLowerCase (Js.trim (rf_email formData)))
                                (Js.trim (rf_mobile formData)))
                  (tbl_users w) with
  | Some rows => rows
  | None => []
  end.

(** The account [handleRegister] inserts, as the store holds it. A null
    email is held as the empty string. *)
Definition new_account (formData : RegisterForm) (selectedRole : UserRole)
    (net : RegisterNetwork) : UserProfile :=
  {| user_id := user_row_id net;
     name := Js.trim (rf_name formData);
     role := selectedRole;
     mobile := Js.trim (rf_mobile formData);
     email := Js.toLowerCase (Js.trim (rf_email formData));
     password_hash := rf_password formData;
     is_active := true;
     user_created_at := user_now net |}.

(** [from('users').insert([row]).select().single()] *)
Definition insert_user (fault : option string) (row : UserProfile)
  : M (Response UserProfile) :=
  fun w =>
    match fault with
    | Some e => (Return {| data := None; error := Some e |}, w)
    | None =>
        (Return {| data := Some row; error := None |},
         set_users (tbl_users w ++ [row]) w)
    end.

Definition duplicate_msg : string :=
  "An account already exists with this email or mobile number.".

(** The [try] block of [handleRegister]. *)
Definition register_body {S : Postgrest} (formData : RegisterForm)
    (selectedRole : UserRole) (net : RegisterNetwork)
  : M (UserRole * string) :=
  let cleanEmail := Js.toLowerCase (Js.trim (rf_email formData)) in
  let cleanMobile := Js.trim (rf_mobile formData) in
  resp <- select_existing (duplicate_fault net)
            (orConditions cleanEmail cleanMobile) ;;
  match data resp with
  | Some (_ :: _) => throw duplicate_msg
  | _ =>
      ins <- insert_user (insert_fault net)
               (new_account formData selectedRole net) ;;
      match error ins with
      | Some e => throw e
      | None => ret (selectedRole, Js.trim (rf_name formData))
      end
  end.

Inductive RegisterView :=
| NotSubmitted                                   (* validation failed *)
| Registered (r : UserRole) (user_name : string) (* [onSuccess(role, name)] *)
| RegisterError (message : string).              (* [setError(message)] *)

Definition handleRegister {S : Postgrest} (formData : RegisterForm)
    (selectedRole : UserRole) (net : RegisterNetwork) (w : World)
  : RegisterView * World :=
  if negb (snd (validation formData selectedRole))
  then (NotSubmitted, w)
  else
    match register_body formData selectedRole net w with
    | (Return (r, n), w') => (Registered r n, w')
    | (Throw e, w') =>
        (RegisterError (Js.or_str e "Registration failed. Please try again."),
         w')
    end.

(** ** A store that answers eq-conditions *)

(** The text split at its commas. *)
Fixpoint split_commas (s : string) : list string :=
  match s with
  | EmptyString => [EmptyString]
  | String c r =>
      if Ascii.eqb c ","%char then EmptyString :: split_commas r
      else match split_commas r with
           | p :: ps => String c p :: ps
           | [] => [String c EmptyString]
           end
  end.

Fixpoint no_comma (s : string) : bool :=
  match s with
  | EmptyString => true
  | String c r => negb (Ascii.eqb c ","%char) && no_comma r
  end.

(** [s] without its prefix [p]. *)
Fixpoint drop_prefix (p s : string) : option string :=
  match p, s with
  | EmptyString, _ => Some s
  | String a p', String b s' =>
      if Ascii.eqb a b then drop_prefix p' s' else None
  | String _ _, EmptyString => None
  end.

Definition parse_cond (piece : string) : option (Column * string) :=
  let try_column c :=
    match drop_prefix (column_name c ++ ".eq.") piece with
    | Some v => if cond_ok (c, v) then Some (c, v) else None
    | None => None
    end in
  match try_column col_email with
  | Some cv => Some cv
  | None =>
      match try_column col_mobile with
      | Some cv => Some cv
      | None => try_column col_role
      end
  end.

Fixpoint parse_conds (pieces : list string) : option (list (Column * string)) :=
  match pieces with
  | [] => Some []
  | piece :: rest =>
      match parse_cond piece, parse_conds rest with
      | Some cv, Some cvs => Some (cv :: cvs)
      | _, _ => None
      end
  end.

(** A store that evaluates the lists of eq-conditions on plain values and
    refuses every other filter: the least a [lawful] store does. It serves to
    run the handlers on concrete inputs. *)
Definition eq_conditions_only (filters : string) (rows : list UserProfile)
  : option (list UserProfile) :=
  match parse_conds (split_commas filters) with
  | Some conds => Some (filter (fun u => existsb (cond_holds u) conds) rows)
  | None => None
  end.

#[export] Instance eq_store : Postgrest := {| or_filter := eq_conditions_only |}.

(** No two accounts share a mobile, and no two a non-empty email. *)
Definition unique_identifiers (users : list UserProfile) : Prop :=
  NoDup (map mobile users)
  /\ NoDup (filter Js.truthy (map email users)).

(** The portal of a role, and the identifier an account of that role
    registers under. *)
Definition portal_of (r : UserRole) : Portal :=
  match r with WORKER => portal_worker | ADMIN => portal_admin end.

Definition login_identifier (formData : RegisterForm) (r : UserRole) : string :=
  match r with WORKER => rf_mobile formData | ADMIN => rf_email formData end.

(** ** Sample data of the further properties *)

Definition worker_form : RegisterForm :=
  {| rf_name := " Meena Rao "; rf_email := EmptyString;
     rf_mobile := "9123456780"; rf_password := "hunter22";
     rf_confirmPassword := "hunter22" |}.

Definition ravi_again : RegisterForm :=
  {| rf_name := "Ravi K"; rf_email := EmptyString;
     rf_mobile := "9876543210"; rf_password := "another1";
     rf_confirmPassword := "another1" |}.

Definition check_fails : RegisterNetwork :=
  {| duplicate_fault := Some "Failed to fetch"; insert_fault := None;
     user_row_id := "u-9"; user_now := "2026-03-01" |}.

Definition quiet_register : RegisterNetwork :=
  {| duplicate_fault := None; insert_fault := None; user_row_id := "u-3";
     user_now := "2026-02-01" |}.

Definition visit_fails : Network :=
  {| now := "1767000000000"; random_tag := "k3x9q"; upload_fault := None;
     visit_fault := Some "permission denied for table visits";
     activity_fault := None; visit_row_id := "v-1"; activity_row_id := "a-1" |}.

Definition all_quiet : Network :=
  {| now := "1767000000000"; random_tag := "k3x9q"; upload_fault := None;
     visit_fault := None; activity_fault := None;
     visit_row_id := "v-1"; activity_row_id := "a-1" |}.

Definition upload_fails : Network :=
  {| now := "1767000000000"; random_tag := "k3x9q";
     upload_fault := Some "Bucket not found";
     visit_fault := None; activity_fault := None;
     visit_row_id := "v-1"; activity_row_id := "a-1" |}.

Definition sample_photo : File :=
  {| file_name := "shop.front.jpg"; file_content := "JFIF" |}.

Definition stored_visit : FieldVisit :=
  Supabase.stored "v-7" "2026-01-05"
    (visitData sample_form sample_location None).

Definition one_visit : World :=
  {| tbl_visits := [stored_visit]; tbl_visit_activities := [];
     tbl_users := []; bucket := []; console := [] |}.

Definition nameless : list FieldVisit :=
  [worker_visit EmptyString follow_up None;
   worker_visit EmptyString converted (Some "9000000000")].

(** * Properties *)

(** ** Strings *)

Lemma truthy_toLowerCase (s : string) :
  Js.truthy (Js.toLowerCase s) = Js.truthy s.
Proof. destruct s; reflexivity. Qed.

Lemma includes_empty_hay (needle : string) :
  Js.truthy needle = true -> Js.includes EmptyString needle = false.
Proof. destruct needle; simpl; [discriminate | reflexivity]. Qed.

(** The truthiness guard in front of [includes] is redundant for a non-empty
    needle. *)
Lemma guarded_includes (hay needle : string) :
  Js.truthy needle = true ->
  Js.truthy hay && Js.includes hay needle = Js.includes hay needle.
Proof.
  intros Hn. destruct hay as [|c r].
  - now rewrite includes_empty_hay.
  - reflexivity.
Qed.

Lemma prefix_append (needle hay : string) :
  String.prefix needle hay = true <-> exists b, hay = needle ++ b.
Proof.
  revert hay. induction needle as [|c n IH]; intros hay; simpl.
  - destruct hay; split; eauto.
  - destruct hay as [|d h]; simpl.
    + split; [discriminate | intros [b Hb]; discriminate].
    + destruct (ascii_dec c d) as [->|Hcd].
      * rewrite IH. split; intros [b Hb]; exists b; congruence.
      * split; [discriminate | intros [b Hb]; congruence].
Qed.

(** [includes] is the substring test. *)
Lemma includes_substring (hay needle : string) :
  Js.includes hay needle = true <-> exists a b, hay = a ++ needle ++ b.
Proof.
  induction hay as [|c r IH]; cbn [Js.includes];
    rewrite orb_true_iff, prefix_append.
  - split.
    + intros [[b Hb]|H]; [exists EmptyString, b; exact Hb | discriminate].
    + intros [a [b Hab]]. left. exists b.
      destruct a; [exact Hab | discriminate].
  - rewrite IH. split.
    + intros [[b Hb]|[a [b Hab]]].
      * exists EmptyString, b. exact Hb.
      * exists (String c a), b. simpl. now rewrite Hab.
    + intros [[|d a] [b Hab]]; simpl in Hab.
      * left. now exists b.
      * right. exists a, b. congruence.
Qed.

Example trim_padded : Js.trim "  Jane Doe  " = "Jane Doe".
Proof. reflexivity. Qed.

Example lower_mixed : Js.toLowerCase "JaNe-42" = "jane-42".
Proof. reflexivity. Qed.

Example includes_inner : Js.includes "sunrise school" "se sc" = true.
Proof. reflexivity. Qed.

Example file_ext_last : file_ext "site.photo.JPG" = "JPG".
Proof. reflexivity. Qed.

(** ** Lists *)

Lemma filter_filter {A} (p q : A -> bool) (l : list A) :
  filter q (filter p l) = filter (fun x => p x && q x) l.
Proof.
  induction l as [|x l IH]; simpl; [reflexivity|].
  destruct (p x); simpl; [destruct (q x)|]; now rewrite IH.
Qed.

Lemma filter_true {A} (l : list A) : filter (fun _ => true) l = l.
Proof. induction l as [|x l IH]; simpl; [|rewrite IH]; reflexivity. Qed.

Lemma filter_idem {A} (p : A -> bool) (l : list A) :
  filter p (filter p l) = filter p l.
Proof.
  rewrite filter_filter. apply filter_ext. intros x. now destruct (p x).
Qed.

(** ** The status tally *)

Section Tally.

Variable visits : list FieldVisit.

Lemma tally_partition :
  (count_status follow_up visits + count_status converted visits
   + count_status rejected visits = List.length visits)%nat.
Proof.
  unfold count_status, has_status.
  induction visits as [|v l IH]; simpl; [reflexivity|].
  destruct (status v); simpl; lia.
Qed.

(** C1: the follow_up, converted and rejected counts of the tally add up to
    the total it reports, the length of the list. *)
Theorem stats_counts_sum_to_total :
  (st_follow_up (stats visits) + st_converted (stats visits)
   + st_rejected (stats visits) = st_total (stats visits))%nat
  /\ st_total (stats visits) = List.length visits.
Proof. split; [exact tally_partition | reflexivity]. Qed.

End Tally.

Example scenario_tally :
  stats scenario
  = {| st_follow_up := 1; st_converted := 1; st_rejected := 1;
       total_revenue := 500; st_total := 3 |}.
Proof. reflexivity. Qed.

(** ** The revenue total *)

Lemma or_num_zero (n : Z) : Js.or_num n 0 = n.
Proof. unfold Js.or_num. destruct (Z.eqb_spec n 0); congruence. Qed.

Lemma reduce_converted (visits : list FieldVisit) (acc : Z) :
  fold_left (fun a curr => a + Js.or_num (budget curr) 0)
            (filter (has_status converted) visits) acc
  = acc + converted_budget_sum visits.
Proof.
  revert acc. induction visits as [|v l IH]; intros acc; simpl; [lia|].
  unfold has_status. destruct (status v); simpl; rewrite IH;
    rewrite ?or_num_zero; lia.
Qed.

Lemma revenue_sum (visits : list FieldVisit) :
  total_revenue (stats visits) = converted_budget_sum visits.
Proof. unfold stats; simpl. now rewrite reduce_converted. Qed.

Lemma sum_ignores_other_budget (visits : list FieldVisit) :
  forall (i : nat) (v : FieldVisit) (b : Z),
    nth_error visits i = Some v -> status v <> converted ->
    converted_budget_sum (replace_at i (with_budget v b) visits)
    = converted_budget_sum visits.
Proof.
  induction visits as [|x l IH]; intros [|i] v b Hn Hs; simpl in *;
    try discriminate.
  - injection Hn as ->. destruct (status v); congruence.
  - now rewrite (IH i v b Hn Hs).
Qed.

(** C2: the revenue total is the sum of budget over exactly the converted
    records, and replacing the budget of a record that is not converted
    leaves it unchanged. *)
Theorem revenue_counts_converted_only (visits : list FieldVisit) :
  total_revenue (stats visits) = converted_budget_sum visits
  /\ forall (i : nat) (v : FieldVisit) (b : Z),
       nth_error visits i = Some v -> status v <> converted ->
       total_revenue (stats (replace_at i (with_budget v b) visits))
       = total_revenue (stats visits).
Proof.
  split; [apply revenue_sum|].
  intros i v b Hn Hs. rewrite !revenue_sum.
  now apply sum_ignores_other_budget.
Qed.

Lemma revenue_counts_converted_only_witness :
  total_revenue (stats scenario) = 500
  /\ total_revenue
       (stats (replace_at 1 (with_budget (blank_visit follow_up 0) 999) scenario))
     = 500.
Proof.
  destruct (revenue_counts_converted_only scenario) as [Hsum Hsame].
  split.
  - rewrite Hsum. reflexivity.
  - rewrite (Hsame 1%nat (blank_visit follow_up 0) 999).
    + rewrite Hsum. reflexivity.
    + reflexivity.
    + discriminate.
Defined.

(** ** The table filter *)

Lemma filteredVisits_filter (visits : list FieldVisit) (sel : StatusFilter)
    (search : string) :
  filteredVisits visits sel search = filter (kept sel search) visits.
Proof.
  unfold filteredVisits, kept.
  destruct sel as [|st]; destruct (Js.truthy search); simpl.
  - reflexivity.
  - now rewrite filter_true.
  - now rewrite filter_filter.
  - apply filter_ext. intros v. now rewrite andb_true_r.
Qed.

Lemma kept_stored_phone (sel : StatusFilter) (search : string) (v : FieldVisit) :
  kept sel search v = stored_phone_selected sel search v.
Proof.
  unfold kept, stored_phone_selected. f_equal.
  destruct search as [|c r]; [reflexivity|].
  assert (Hs : Js.truthy (Js.toLowerCase (String c r)) = true)
    by now rewrite truthy_toLowerCase.
  change (Js.truthy (String c r)) with true. cbv iota.
  unfold search_hit, contains_folded_term, contains_ci_opt, contains_ci.
  destruct (client_phone v) as [p|], (client_email v) as [e|];
    try rewrite <- (truthy_toLowerCase e);
    rewrite ?guarded_includes; try reflexivity; assumption.
Qed.

(** The filter returns exactly, in order, the records that match the
    selected status (when the selector is not [all]) and, when the search
    term is non-empty, whose client name, worker name or client email
    contains the term with case ignored, or whose client phone as stored
    contains the lower-cased term; an empty term matches every record. *)
Lemma filteredVisits_exact (visits : list FieldVisit) (sel : StatusFilter)
    (search : string) :
  filteredVisits visits sel search
  = filter (stored_phone_selected sel search) visits.
Proof.
  rewrite filteredVisits_filter. apply filter_ext. intros v.
  apply kept_stored_phone.
Qed.

(** On records whose phones hold no capital letter the filter selects by
    all four fields with case ignored. *)
Lemma filteredVisits_case_free_phones (visits : list FieldVisit)
    (sel : StatusFilter) (search : string) :
  (forall v p, In v visits -> client_phone v = Some p ->
               Js.toLowerCase p = p) ->
  filteredVisits visits sel search = filter (spec_selected sel search) visits.
Proof.
  intros Hfree. rewrite filteredVisits_filter.
  apply filter_ext_in. intros v Hv. rewrite kept_stored_phone.
  unfold stored_phone_selected, spec_selected. f_equal.
  destruct search as [|c r]; [reflexivity|].
  f_equal. f_equal.
  unfold contains_folded_term, contains_ci_opt, contains_ci.
  destruct (client_phone v) as [p|] eqn:Ep; [|reflexivity].
  now rewrite (Hfree v p Hv Ep).
Qed.


(** C10: filtering the output of the filter again, with the same selector
    and term, returns the identical list. *)
Theorem filteredVisits_idempotent (visits : list FieldVisit)
    (sel : StatusFilter) (search : string) :
  filteredVisits (filteredVisits visits sel search) sel search
  = filteredVisits visits sel search.
Proof. rewrite !filteredVisits_filter. apply filter_idem. Qed.

(** ** The insertion-ordered map *)

Section JsMapFacts.

Import JsMap.

Lemma get_set_eq (k : string) (s : WorkerStat) (m : t) :
  get k (set k s m) = Some s.
Proof.
  induction m as [|[k' s'] m IH]; simpl.
  - now rewrite String.eqb_refl.
  - destruct (String.eqb k' k) eqn:E; simpl; rewrite E; [reflexivity | exact IH].
Qed.

Lemma get_set_ne (k k' : string) (s : WorkerStat) (m : t) :
  k' <> k -> get k' (set k s m) = get k' m.
Proof.
  intros Hne. induction m as [|[k0 s0] m IH]; simpl.
  - destruct (String.eqb_spec k k'); congruence.
  - destruct (String.eqb_spec k0 k) as [->|Hk]; simpl.
    + destruct (String.eqb_spec k k'); congruence.
    + now rewrite IH.
Qed.

Lemma get_None_keys (k : string) (m : t) :
  get k m = None <-> ~ In k (keys m).
Proof.
  induction m as [|[k' s'] m IH]; simpl.
  - tauto.
  - destruct (String.eqb_spec k' k) as [->|Hk].
    + split; [discriminate | tauto].
    + rewrite IH. tauto.
Qed.

Lemma keys_set (k : string) (s : WorkerStat) (m : t) :
  keys (set k s m) = if has k m then keys m else (keys m ++ [k])%list.
Proof.
  unfold has. induction m as [|[k' s'] m IH]; simpl; [reflexivity|].
  destruct (String.eqb k' k); simpl; [reflexivity|].
  rewrite IH. now destruct (get k m).
Qed.

Lemma NoDup_keys_set (k : string) (s : WorkerStat) (m : t) :
  NoDup (keys m) -> NoDup (keys (set k s m)).
Proof.
  intros Hnd. rewrite keys_set. unfold has.
  destruct (get k m) eqn:E; [exact Hnd|].
  apply get_None_keys in E.
  apply NoDup_app; [exact Hnd | repeat constructor; simpl; tauto |].
  intros x Hx [<-|[]]. contradiction.
Qed.

Lemma In_get (k : string) (s : WorkerStat) (m : t) :
  NoDup (keys m) -> In (k, s) m -> get k m = Some s.
Proof.
  induction m as [|[k' s'] m IH]; simpl; intros Hnd Hin; [contradiction|].
  inversion Hnd as [|? ? Hk' Hnd']; subst.
  destruct Hin as [Heq|Hin].
  - injection Heq as -> ->. now rewrite String.eqb_refl.
  - destruct (String.eqb_spec k' k) as [->|Hk].
    + exfalso. apply Hk'. change k with (fst (k, s)). now apply in_map.
    + now apply IH.
Qed.

Lemma get_In (k : string) (s : WorkerStat) (m : t) :
  get k m = Some s -> In (k, s) m.
Proof.
  induction m as [|[k' s'] m IH]; simpl; [discriminate|].
  destruct (String.eqb_spec k' k) as [->|Hk]; intros H.
  - injection H as ->. now left.
  - right. now apply IH.
Qed.

End JsMapFacts.

(** ** The per-worker rollup *)

Lemma worker_step_get_same (m : JsMap.t) (v : FieldVisit) :
  JsMap.get (normalizedKey v) (worker_step m v)
  = Some (bump v match JsMap.get (normalizedKey v) m with
                 | Some s => s
                 | None => fresh_entry v
                 end).
Proof.
  unfold worker_step, JsMap.has.
  destruct (JsMap.get (normalizedKey v) m) as [s|] eqn:E; simpl.
  - rewrite E. apply get_set_eq.
  - fold (fresh_entry v). rewrite get_set_eq. apply get_set_eq.
Qed.

Lemma worker_step_get_other (m : JsMap.t) (v : FieldVisit) (k : string) :
  k <> normalizedKey v -> JsMap.get k (worker_step m v) = JsMap.get k m.
Proof.
  intros Hne. unfold worker_step, JsMap.has.
  destruct (JsMap.get (normalizedKey v) m) as [s|] eqn:E; simpl.
  - rewrite E. now apply get_set_ne.
  - fold (fresh_entry v). rewrite get_set_eq.
    rewrite !get_set_ne by assumption. reflexivity.
Qed.

Lemma worker_step_NoDup (m : JsMap.t) (v : FieldVisit) :
  NoDup (JsMap.keys m) -> NoDup (JsMap.keys (worker_step m v)).
Proof.
  intros Hnd. unfold worker_step.
  destruct (negb (JsMap.has (normalizedKey v) m)).
  - destruct (JsMap.get _ (JsMap.set _ _ m));
      [apply NoDup_keys_set|]; now apply NoDup_keys_set.
  - destruct (JsMap.get _ m); [now apply NoDup_keys_set | exact Hnd].
Qed.

Lemma worker_map_snoc (l : list FieldVisit) (v : FieldVisit) :
  worker_map (l ++ [v]) = worker_step (worker_map l) v.
Proof. unfold worker_map. now rewrite fold_left_app. Qed.

Lemma worker_map_NoDup (visits : list FieldVisit) :
  NoDup (JsMap.keys (worker_map visits)).
Proof.
  induction visits as [|v l IH] using rev_ind.
  - constructor.
  - rewrite worker_map_snoc. now apply worker_step_NoDup.
Qed.

Lemma group_snoc (k : string) (l : list FieldVisit) (v : FieldVisit) :
  group k (l ++ [v])
  = (group k l ++ if String.eqb (normalizedKey v) k then [v] else [])%list.
Proof. unfold group. rewrite filter_app. reflexivity. Qed.

Lemma count_status_snoc (st : VisitStatus) (g : list FieldVisit)
    (v : FieldVisit) :
  count_status st (g ++ [v])
  = (count_status st g + if status_eqb (status v) st then 1 else 0)%nat.
Proof.
  unfold count_status, has_status. rewrite filter_app, length_app. simpl.
  now destruct (status_eqb (status v) st).
Qed.

Lemma first_phone_truthy (g : list FieldVisit) (p : string) :
  first_phone g = Some p -> Js.truthy p = true.
Proof.
  induction g as [|v g IH]; simpl; [discriminate|].
  destruct (Js.truthy_opt (worker_phone v)) eqn:E; [|exact IH].
  intros H. rewrite H in E. exact E.
Qed.

Lemma first_phone_None (g : list FieldVisit) (v : FieldVisit) :
  first_phone g = None -> In v g -> Js.truthy_opt (worker_phone v) = false.
Proof.
  induction g as [|x g IH]; simpl; [contradiction|].
  destruct (Js.truthy_opt (worker_phone x)) eqn:E.
  - intros H. rewrite H in E. discriminate.
  - intros H [<-|Hin]; [exact E | now apply IH].
Qed.

Lemma first_phone_snoc (g : list FieldVisit) (v : FieldVisit) :
  first_phone (g ++ [v])
  = match first_phone g with
    | Some p => Some p
    | None => if Js.truthy_opt (worker_phone v) then worker_phone v else None
    end.
Proof.
  induction g as [|x g IH]; simpl; [reflexivity|].
  destruct (Js.truthy_opt (worker_phone x)) eqn:E; [|exact IH].
  destruct (worker_phone x); [reflexivity | discriminate].
Qed.

Lemma group_phone_snoc (v0 v : FieldVisit) (g : list FieldVisit) :
  group_phone ((v0 :: g) ++ [v])
  = if negb (Js.truthy_opt (group_phone (v0 :: g)))
       && Js.truthy_opt (worker_phone v)
    then worker_phone v else group_phone (v0 :: g).
Proof.
  unfold group_phone. rewrite first_phone_snoc.
  destruct (first_phone (v0 :: g)) as [p|] eqn:E.
  - simpl Js.truthy_opt at 1. now rewrite (first_phone_truthy _ E).
  - rewrite (first_phone_None _ v0 E) by now left.
    simpl. destruct (Js.truthy_opt (worker_phone v)) eqn:Ev; [|reflexivity].
    destruct (worker_phone v); [reflexivity | discriminate].
Qed.

(** Appending a record to a group does to its entry what the loop body does. *)
Lemma entry_of_snoc (g : list FieldVisit) (v : FieldVisit) :
  entry_of (g ++ [v])
  = Some (bump v match entry_of g with
                 | Some s => s
                 | None => fresh_entry v
                 end).
Proof.
  destruct g as [|v0 g].
  - unfold entry_of, bump, fresh_entry, group_phone, count_status, has_status.
    simpl. destruct (status v), (worker_phone v) as [[|c p]|]; reflexivity.
  - unfold entry_of at 2. change ((v0 :: g) ++ [v])%list with (v0 :: (g ++ [v]))%list.
    unfold entry_of. change (v0 :: (g ++ [v]))%list with ((v0 :: g) ++ [v])%list.
    unfold bump. cbn [ws_name ws_total ws_converted ws_follow_up ws_rejected ws_phone].
    rewrite !count_status_snoc, group_phone_snoc, length_app.
    f_equal. f_equal; simpl; destruct (status v); simpl; lia.
Qed.

(** The entry stored under a key is the entry of the key's group. *)
Lemma get_worker_map (visits : list FieldVisit) (k : string) :
  JsMap.get k (worker_map visits) = entry_of (group k visits).
Proof.
  induction visits as [|v l IH] using rev_ind; [reflexivity|].
  rewrite worker_map_snoc, group_snoc.
  destruct (String.eqb_spec (normalizedKey v) k) as [<-|Hk].
  - rewrite worker_step_get_same, IH. symmetry. apply entry_of_snoc.
  - rewrite worker_step_get_other by congruence.
    now rewrite app_nil_r.
Qed.

Lemma entry_of_None (g : list FieldVisit) : entry_of g = None <-> g = [].
Proof. destruct g; simpl; split; congruence. Qed.

Lemma worker_map_entry (visits : list FieldVisit) (k : string) (s : WorkerStat) :
  In (k, s) (worker_map visits) -> entry_of (group k visits) = Some s.
Proof.
  intros Hin. rewrite <- get_worker_map.
  apply In_get; [apply worker_map_NoDup | exact Hin].
Qed.

Lemma worker_map_keys (visits : list FieldVisit) (k : string) :
  In k (JsMap.keys (worker_map visits))
  <-> exists v, In v visits /\ normalizedKey v = k.
Proof.
  assert (Hg : group k visits <> []
               <-> exists v, In v visits /\ normalizedKey v = k).
  { unfold group. split.
    - destruct (filter _ visits) as [|v g] eqn:E; [congruence|]. intros _.
      assert (Hin : In v (filter (fun v => String.eqb (normalizedKey v) k) visits))
        by (rewrite E; now left).
      apply filter_In in Hin. destruct Hin as [Hin Hk].
      exists v. split; [exact Hin | now apply String.eqb_eq].
    - intros [v [Hin Hk]] E.
      assert (Hf : In v (filter (fun v => String.eqb (normalizedKey v) k) visits))
        by (apply filter_In; split; [exact Hin | now apply String.eqb_eq]).
      rewrite E in Hf. contradiction. }
  rewrite <- Hg, <- entry_of_None, <- get_worker_map, get_None_keys.
  destruct (in_dec string_dec k (JsMap.keys (worker_map visits))); tauto.
Qed.

Lemma three_janes (v1 v2 v3 : FieldVisit) :
  worker_name v1 = "Jane" -> worker_name v2 = " jane " ->
  worker_name v3 = "JANE" ->
  exists s, workerStats [v1; v2; v3] = [s]
            /\ ws_name s = "Jane" /\ ws_total s = 3%nat.
Proof.
  intros H1 H2 H3.
  unfold workerStats, worker_map, JsMap.values. simpl fold_left.
  unfold worker_step, normalizedKey, originalName. rewrite H1, H2, H3.
  cbn. eexists. split; [reflexivity|]. split; reflexivity.
Qed.

(** C4: the rollup has one entry per trimmed, lower-cased worker name (an
    empty name counting as "Unknown"); the entry of a group shows the trimmed
    name of the group's first record and the group's size as total; records
    named "Jane", " jane ", "JANE" give one entry, "Jane", total 3. *)
Theorem workerStats_groups_by_normalized_name (visits : list FieldVisit) :
  workerStats visits = map snd (worker_map visits)
  /\ NoDup (JsMap.keys (worker_map visits))
  /\ (forall k, In k (JsMap.keys (worker_map visits))
                <-> exists v, In v visits /\ normalizedKey v = k)
  /\ (forall v,
        normalizedKey v = Js.toLowerCase (Js.trim (originalName v))
        /\ (worker_name v = EmptyString -> originalName v = "Unknown")
        /\ (worker_name v <> EmptyString -> originalName v = worker_name v))
  /\ (forall k s, In (k, s) (worker_map visits) ->
        exists v0 rest,
          group k visits = v0 :: rest
          /\ ws_name s = Js.trim (originalName v0)
          /\ ws_total s = List.length (group k visits))
  /\ (forall v1 v2 v3,
        worker_name v1 = "Jane" -> worker_name v2 = " jane " ->
        worker_name v3 = "JANE" ->
        exists s, workerStats [v1; v2; v3] = [s]
                  /\ ws_name s = "Jane" /\ ws_total s = 3%nat).
Proof.
  split; [reflexivity|].
  split; [apply worker_map_NoDup|].
  split; [apply worker_map_keys|].
  split.
  { intros v. split; [reflexivity|]. unfold originalName.
    split; [intros ->; reflexivity|].
    destruct (worker_name v); [congruence | reflexivity]. }
  split; [|exact three_janes].
  intros k s Hin. apply worker_map_entry in Hin.
  destruct (group k visits) as [|v0 rest]; simpl in Hin; [discriminate|].
  injection Hin as <-. exists v0, rest. repeat split.
Qed.

Lemma workerStats_groups_by_normalized_name_witness :
  workerStats janes
  = [{| ws_name := "Jane"; ws_total := 3; ws_converted := 1;
        ws_follow_up := 1; ws_rejected := 1;
        ws_phone := Some "9876543210" |}]
  /\ exists s, workerStats janes = [s]
               /\ ws_name s = "Jane" /\ ws_total s = 3%nat.
Proof.
  split; [reflexivity|].
  destruct (workerStats_groups_by_normalized_name janes)
    as (_ & _ & _ & _ & _ & Hjane).
  apply (Hjane (worker_visit "Jane" follow_up (Some EmptyString))
               (worker_visit " jane " converted (Some "9876543210"))
               (worker_visit "JANE" rejected (Some "9000000000")));
    reflexivity.
Defined.

(** C9: the phone of a worker's rollup entry is the first non-empty
    worker_phone among that worker's records, in list order; when none of
    them carries a non-empty phone the entry has none (its phone is empty or
    absent). *)
Theorem workerStats_phone_first_non_empty (visits : list FieldVisit)
    (k : string) (s : WorkerStat) :
  In (k, s) (worker_map visits) ->
  match first_phone (group k visits) with
  | Some p => ws_phone s = Some p
  | None => Js.truthy_opt (ws_phone s) = false
  end.
Proof.
  intros Hin. apply worker_map_entry in Hin.
  destruct (group k visits) as [|v0 rest] eqn:Eg; simpl in Hin; [discriminate|].
  injection Hin as <-. cbn [ws_phone]. unfold group_phone.
  destruct (first_phone (v0 :: rest)) as [p|] eqn:E; [reflexivity|].
  apply (first_phone_None _ v0 E). now left.
Qed.

Lemma workerStats_phone_first_non_empty_witness :
  In ("jane",
      {| ws_name := "Jane"; ws_total := 3; ws_converted := 1;
         ws_follow_up := 1; ws_rejected := 1;
         ws_phone := Some "9876543210" |}) (worker_map janes)
  /\ first_phone (group "jane" janes) = Some "9876543210".
Proof.
  assert (Hin : In ("jane",
      {| ws_name := "Jane"; ws_total := 3; ws_converted := 1;
         ws_follow_up := 1; ws_rejected := 1;
         ws_phone := Some "9876543210" |}) (worker_map janes))
    by (left; reflexivity).
  split; [exact Hin|].
  pose proof (workerStats_phone_first_non_empty janes _ _ Hin) as H.
  destruct (first_phone (group "jane" janes)) as [p|] eqn:E.
  - simpl in H. now rewrite H.
  - discriminate H.
Defined.

(** ** The visit form *)

Ltac unfold_submit :=
  unfold submit_body, committed_visits, update_target, written_photo_url,
    bind, ret, throw, Supabase.upload, Supabase.update_visit,
    Supabase.insert_visit, Supabase.insert_activity,
    Supabase.set_visits, Supabase.set_activities.

Ltac split_submit initialData photo net :=
  destruct initialData as [init|];
  [destruct (or_null (id init)) as [row_id|]|];
  destruct photo as [p|];
  destruct (upload_fault net) as [up_err|];
  destruct (visit_fault net) as [visit_err|];
  destruct (activity_fault net) as [act_err|];
  cbn.

Section Submission.

Variables (initialData : option FieldVisit) (formData : FormData)
          (location : LocationState) (photo : option File)
          (net : Network) (w : World).

Lemma submit_body_result :
  fst (submit_body initialData formData location photo net w)
  = match visit_fault net with
    | Some e => Throw e
    | None => Return tt
    end.
Proof.
  unfold_submit. split_submit initialData photo net; reflexivity.
Qed.

Lemma submit_body_visits :
  tbl_visits (snd (submit_body initialData formData location photo net w))
  = match visit_fault net with
    | Some _ => tbl_visits w
    | None =>
        committed_visits initialData
          (visitData formData location
             (written_photo_url initialData photo net))
          net (tbl_visits w)
    end.
Proof.
  unfold_submit. split_submit initialData photo net; reflexivity.
Qed.

Lemma submit_body_activities_on_fault :
  activity_fault net <> None ->
  tbl_visit_activities
    (snd (submit_body initialData formData location photo net w))
  = tbl_visit_activities w.
Proof.
  unfold_submit. split_submit initialData photo net; intros H;
    try reflexivity; now elim H.
Qed.

Lemma submit_body_console :
  console (snd (submit_body initialData formData location photo net w))
  = console w.
Proof.
  unfold_submit. split_submit initialData photo net; reflexivity.
Qed.

Lemma submit_body_users :
  tbl_users (snd (submit_body initialData formData location photo net w))
  = tbl_users w.
Proof.
  unfold_submit. split_submit initialData photo net; reflexivity.
Qed.

End Submission.

Lemma visitData_exclusive (formData : FormData) (location : LocationState)
    (url : option string) :
  status_exclusive (visitData formData location url) = true.
Proof.
  unfold status_exclusive, visitData; simpl.
  destruct (fd_status formData); reflexivity.
Qed.

Lemma keyed_exclusive (i c : option string) (vd : FieldVisit) :
  status_exclusive (Supabase.keyed i c vd) = status_exclusive vd.
Proof. reflexivity. Qed.

Lemma committed_rows (initialData : option FieldVisit) (vd : FieldVisit)
    (net : Network) (rows : list FieldVisit) (row : FieldVisit) :
  status_exclusive vd = true ->
  In row (committed_visits initialData vd net rows) ->
  In row rows \/ status_exclusive row = true.
Proof.
  intros Hvd. unfold committed_visits.
  destruct (update_target initialData) as [row_id|].
  - rewrite in_map_iff. intros [r [Hr Hin]].
    destruct (Supabase.id_is row_id r); subst row.
    + right. unfold Supabase.merge. now rewrite keyed_exclusive.
    + now left.
  - rewrite in_app_iff. intros [Hin|[<-|[]]]; [now left|].
    right. unfold Supabase.stored. now rewrite keyed_exclusive.
Qed.

Lemma handleSubmit_world (initialData : option FieldVisit)
    (formData : FormData) (location : LocationState) (photo : option File)
    (net : Network) (w : World) :
  snd (handleSubmit initialData formData location photo net w)
  = if snd (validatePhones formData)
    then snd (submit_body initialData formData location photo net w)
    else w.
Proof.
  unfold handleSubmit. destruct (validatePhones formData) as [errors ok].
  destruct ok; simpl; [|reflexivity].
  now destruct (submit_body initialData formData location photo net w)
    as [[u|e] w'].
Qed.

(** C5: every visit record the form writes, on create and on update, has
    follow_up_at null unless its status is follow_up, budget 0 unless it is
    converted, and rejection_reason null unless it is rejected. *)
Theorem handleSubmit_writes_exclusive (initialData : option FieldVisit)
    (formData : FormData) (location : LocationState) (photo : option File)
    (net : Network) (w : World) :
  (forall url, status_exclusive (visitData formData location url) = true)
  /\ forall row,
       In row (tbl_visits
                 (snd (handleSubmit initialData formData location photo net w))) ->
       In row (tbl_visits w) \/ status_exclusive row = true.
Proof.
  split; [intros url; apply visitData_exclusive|].
  intros row. rewrite handleSubmit_world.
  destruct (snd (validatePhones formData)); [|now left].
  rewrite submit_body_visits.
  destruct (visit_fault net); [now left|].
  apply committed_rows, visitData_exclusive.
Qed.

Lemma handleSubmit_writes_exclusive_witness :
  status_exclusive
    (Supabase.stored "v-1" "1767000000000"
       (visitData sample_form sample_location None)) = true.
Proof.
  destruct (handleSubmit_writes_exclusive None sample_form sample_location
              None append_fails empty_world) as [_ Hrows].
  destruct (Hrows (Supabase.stored "v-1" "1767000000000"
                     (visitData sample_form sample_location None))
                  (or_introl eq_refl)) as [[]|Hex].
  exact Hex.
Defined.

Lemma handleSubmit_view (initialData : option FieldVisit)
    (formData : FormData) (location : LocationState) (photo : option File)
    (net : Network) (w : World) :
  snd (validatePhones formData) = true ->
  visit_fault net = None ->
  let view := fst (handleSubmit initialData formData location photo net w) in
  msg view = Some (success,
                   match initialData with
                   | Some _ => "Visit updated successfully!"
                   | None => "Visit recorded successfully!"
                   end)
  /\ onSuccess_scheduled view = true.
Proof.
  intros Hok Hvisit. unfold handleSubmit.
  destruct (validatePhones formData) as [errors ok]. simpl in Hok. subst ok.
  pose proof (submit_body_result initialData formData location photo net w) as Hres.
  rewrite Hvisit in Hres.
  destruct (submit_body initialData formData location photo net w) as [[u|e] w'];
    simpl in *; [split; reflexivity | discriminate].
Qed.

(** C6, as stated, fails: a submission whose visit insert succeeds and whose
    activity append fails reports success and keeps the visit, but nothing
    is written to the console. *)
Lemma handleSubmit_append_failure_logged_counterexample :
  let r := handleSubmit None sample_form sample_location None append_fails
             empty_world in
  visit_fault append_fails = None
  /\ activity_fault append_fails = Some "Failed to fetch"
  /\ msg (fst r) = Some (success, "Visit recorded successfully!")
  /\ List.length (tbl_visits (snd r)) = 1%nat
  /\ tbl_visit_activities (snd r) = []
  /\ ~ append_failure_logged empty_world (snd r).
Proof.
  cbv zeta. repeat split.
  unfold append_failure_logged. cbn. lia.
Qed.

(** C6 (amended): when the visit insert or update succeeds and the activity
    append that follows fails, the visit write stays committed, no activity
    entry is added, the form reports success and schedules its success
    callback; the append failure is dropped without a trace, the console is
    left as it was. *)
Theorem handleSubmit_append_failure_keeps_visit
    (initialData : option FieldVisit) (formData : FormData)
    (location : LocationState) (photo : option File) (net : Network)
    (w : World) (e : string) :
  snd (validatePhones formData) = true ->
  visit_fault net = None ->
  activity_fault net = Some e ->
  let r := handleSubmit initialData formData location photo net w in
  tbl_visits (snd r)
  = committed_visits initialData
      (visitData formData location (written_photo_url initialData photo net))
      net (tbl_visits w)
  /\ tbl_visit_activities (snd r) = tbl_visit_activities w
  /\ msg (fst r) = Some (success,
                         match initialData with
                         | Some _ => "Visit updated successfully!"
                         | None => "Visit recorded successfully!"
                         end)
  /\ onSuccess_scheduled (fst r) = true
  /\ console (snd r) = console w.
Proof.
  intros Hok Hvisit Hact r. subst r.
  destruct (@handleSubmit_view initialData formData location photo net w
              Hok Hvisit)
    as [Hmsg Hdone].
  rewrite handleSubmit_world, Hok.
  rewrite submit_body_visits, Hvisit, submit_body_console.
  rewrite submit_body_activities_on_fault by (rewrite Hact; discriminate).
  repeat split; assumption.
Qed.

Lemma handleSubmit_append_failure_keeps_visit_witness :
  tbl_visits
    (snd (handleSubmit None sample_form sample_location None append_fails
            empty_world))
  = [Supabase.stored "v-1" "1767000000000"
       (visitData sample_form sample_location None)]
  /\ msg (fst (handleSubmit None sample_form sample_location None append_fails
                 empty_world))
     = Some (success, "Visit recorded successfully!").
Proof.
  destruct (@handleSubmit_append_failure_keeps_visit None sample_form
              sample_location None append_fails empty_world "Failed to fetch"
              eq_refl eq_refl eq_refl) as (Hv & _ & Hm & _ & _).
  split; [rewrite Hv; reflexivity | exact Hm].
Defined.

(** ** The login check *)

Ltac case_or_filter :=
  match goal with
  | |- context [or_filter ?f ?rows] => destruct (or_filter f rows)
  end.

Tactic Notation "case_or_filter" "as" ident(l) :=
  match goal with
  | |- context [or_filter ?f ?rows] => destruct (or_filter f rows) as [l|]
  end.

Section LoginCheck.

Context {S : Postgrest}.

Lemma handleAuth_first_match (portal : Portal) (identifier password : string)
    (w : World) (user : UserProfile) (rest : list UserProfile) :
  matching_accounts identifier w = user :: rest ->
  handleAuth portal identifier password None w
  = (verdict portal password user, w).
Proof.
  unfold matching_accounts, handleAuth, auth_body, bind, Supabase.select_users.
  cbv zeta. case_or_filter; intros Hm; [|discriminate]. subst.
  cbn [data error]. unfold verify, verdict, bind, ret, throw.
  destruct portal, (role user), (is_active user),
    (String.eqb (password_hash user) password); reflexivity.
Qed.

Lemma handleAuth_no_match (portal : Portal) (identifier password : string)
    (fetch_fault : option string) (w : World) :
  matching_accounts identifier w = [] ->
  handleAuth portal identifier password fetch_fault w
  = (AuthError not_found_msg, w).
Proof.
  unfold matching_accounts, handleAuth, auth_body, bind, Supabase.select_users.
  cbv zeta. destruct fetch_fault; [reflexivity|].
  case_or_filter; intros Hm; [subst|]; reflexivity.
Qed.

(** C7: a login on the admin portal whose matched account is a worker, and
    a login on the worker portal whose matched account is an admin, end in
    the access-denied message, and the store is left as it was. *)
Theorem handleAuth_role_mismatch_denied (identifier password : string)
    (w : World) (user : UserProfile) (rest : list UserProfile) :
  matching_accounts identifier w = user :: rest ->
  (role user = WORKER ->
   handleAuth portal_admin identifier password None w
   = (AuthError not_admin_msg, w))
  /\ (role user = ADMIN ->
      handleAuth portal_worker identifier password None w
      = (AuthError not_worker_msg, w)).
Proof.
  intros Hm. split; intros Hr;
    rewrite (handleAuth_first_match _ _ password _ Hm);
    unfold verdict; now rewrite Hr.
Qed.

End LoginCheck.

Lemma handleAuth_role_mismatch_denied_witness :
  handleAuth portal_admin " 9876543210 " "secret1" None two_accounts
  = (AuthError "Access Denied: Administrative privileges required.",
     two_accounts)
  /\ handleAuth portal_worker "Asha@FieldTrack.pro" "secret2" None two_accounts
     = (AuthError
          "Access Denied: This account is not registered as a Field Worker.",
        two_accounts).
Proof.
  split.
  - apply (@handleAuth_role_mismatch_denied eq_store " 9876543210 " "secret1"
             two_accounts worker_account [] eq_refl); reflexivity.
  - apply (@handleAuth_role_mismatch_denied eq_store "Asha@FieldTrack.pro"
             "secret2" two_accounts admin_account [] eq_refl); reflexivity.
Defined.

(** ** The rollup against the tally *)

Lemma group_member (visits : list FieldVisit) (k : string) (v : FieldVisit) :
  In v (group k visits) <-> In v visits /\ normalizedKey v = k.
Proof. unfold group. rewrite filter_In, String.eqb_eq. tauto. Qed.

(** X1: the three status counters of a rollup entry are the numbers of
    records of that status in the entry's group, and they add up to the
    entry's total. *)
Theorem workerStats_status_counts (visits : list FieldVisit) (k : string)
    (s : WorkerStat) :
  In (k, s) (worker_map visits) ->
  (forall st, ws_count st s = count_status st (group k visits))
  /\ (ws_follow_up s + ws_converted s + ws_rejected s = ws_total s)%nat.
Proof.
  intros Hin. apply worker_map_entry in Hin.
  destruct (group k visits) as [|v0 rest] eqn:Eg; simpl in Hin; [discriminate|].
  injection Hin as <-. split.
  - intros [| |]; reflexivity.
  - cbn [ws_follow_up ws_converted ws_rejected ws_total].
    apply tally_partition.
Qed.

Lemma workerStats_status_counts_witness :
  ws_count converted
    {| ws_name := "Jane"; ws_total := 3; ws_converted := 1;
       ws_follow_up := 1; ws_rejected := 1;
       ws_phone := Some "9876543210" |}
  = count_status converted (group "jane" janes).
Proof.
  apply (@workerStats_status_counts janes "jane"
           {| ws_name := "Jane"; ws_total := 3; ws_converted := 1;
              ws_follow_up := 1; ws_rejected := 1;
              ws_phone := Some "9876543210" |}).
  vm_compute. left. reflexivity.
Defined.

Section RollupSums.

(** A counter [f] of the entries that a fresh entry starts at 0 and that the
    loop body raises by [d v]. *)
Variable f : WorkerStat -> nat.
Variable d : FieldVisit -> nat.
Hypothesis f_fresh : forall v, f (fresh_entry v) = 0%nat.
Hypothesis f_bump : forall v s, f (bump v s) = (f s + d v)%nat.

Lemma sum_over_set_new (k : string) (s : WorkerStat) (m : JsMap.t) :
  JsMap.get k m = None ->
  sum_over f (JsMap.set k s m) = (sum_over f m + f s)%nat.
Proof.
  unfold sum_over, JsMap.values.
  induction m as [|[k' s'] m IH]; simpl; intros Hg; [lia|].
  destruct (String.eqb k' k); [discriminate|]. simpl.
  rewrite (IH Hg). lia.
Qed.

Lemma sum_over_set_old (k : string) (s s0 : WorkerStat) (m : JsMap.t) :
  JsMap.get k m = Some s0 ->
  (sum_over f (JsMap.set k s m) + f s0 = sum_over f m + f s)%nat.
Proof.
  unfold sum_over, JsMap.values.
  induction m as [|[k' s'] m IH]; simpl; intros Hg; [discriminate|].
  destruct (String.eqb k' k); simpl.
  - injection Hg as ->. lia.
  - specialize (IH Hg). lia.
Qed.

Lemma sum_over_step (m : JsMap.t) (v : FieldVisit) :
  sum_over f (worker_step m v) = (sum_over f m + d v)%nat.
Proof.
  unfold worker_step, JsMap.has.
  destruct (JsMap.get (normalizedKey v) m) as [s0|] eqn:E; simpl.
  - rewrite E.
    pose proof (sum_over_set_old (normalizedKey v) (bump v s0) m E) as H.
    rewrite f_bump in H. lia.
  - fold (fresh_entry v). rewrite get_set_eq.
    pose proof (sum_over_set_old (normalizedKey v) (bump v (fresh_entry v))
                  (JsMap.set (normalizedKey v) (fresh_entry v) m)
                  (get_set_eq _ _ _)) as H.
    rewrite (sum_over_set_new _ (fresh_entry v) m E) in H.
    rewrite f_bump, f_fresh in H. lia.
Qed.

Lemma sum_over_worker_map (visits : list FieldVisit) :
  sum_over f (worker_map visits) = list_sum (map d visits).
Proof.
  induction visits as [|v l IH] using rev_ind; [reflexivity|].
  rewrite worker_map_snoc, sum_over_step, IH, map_app, list_sum_app.
  simpl. lia.
Qed.

End RollupSums.

Lemma list_sum_ones {A} (l : list A) :
  list_sum (map (fun _ => 1%nat) l) = List.length l.
Proof. induction l as [|x l IH]; simpl; [|rewrite IH]; reflexivity. Qed.

Lemma list_sum_indicator (st : VisitStatus) (l : list FieldVisit) :
  list_sum (map (fun v => if status_eqb (status v) st then 1%nat else 0%nat) l)
  = count_status st l.
Proof.
  unfold count_status, has_status.
  induction l as [|x l IH]; simpl; [reflexivity|].
  destruct (status_eqb (status x) st); simpl; now rewrite IH.
Qed.

(** X2: the rollup counts every record once: the totals of its entries add
    up to the number of records, and for each status the entries' counters
    add up to the count the status tally reports. *)
Theorem workerStats_sums_match_tally (visits : list FieldVisit) :
  list_sum (map ws_total (workerStats visits)) = st_total (stats visits)
  /\ list_sum (map ws_follow_up (workerStats visits))
     = st_follow_up (stats visits)
  /\ list_sum (map ws_converted (workerStats visits))
     = st_converted (stats visits)
  /\ list_sum (map ws_rejected (workerStats visits))
     = st_rejected (stats visits).
Proof.
  assert (Hst : forall st,
             list_sum (map (ws_count st) (workerStats visits))
             = count_status st visits).
  { intros st.
    rewrite <- list_sum_indicator.
    apply (@sum_over_worker_map (ws_count st)
             (fun v => if status_eqb (status v) st then 1%nat else 0%nat)).
    - intros v. now destruct st.
    - intros v s. destruct st; unfold bump; simpl;
        destruct (status v); simpl; lia. }
  split.
  - cbn [st_total stats]. rewrite <- list_sum_ones.
    apply (@sum_over_worker_map ws_total (fun _ => 1%nat)).
    + reflexivity.
    + intros v s. unfold bump; simpl. lia.
  - repeat split; [apply (Hst follow_up) | apply (Hst converted)
                   | apply (Hst rejected)].
Qed.

(** ** The order and the names of the rollup entries *)

Lemma has_get (k : string) (m : JsMap.t) :
  JsMap.has k m = match JsMap.get k m with Some _ => true | None => false end.
Proof. reflexivity. Qed.

Lemma worker_step_has (m : JsMap.t) (v : FieldVisit) (k : string) :
  JsMap.has k (worker_step m v)
  = JsMap.has k m || String.eqb k (normalizedKey v).
Proof.
  rewrite !has_get.
  destruct (String.eqb_spec k (normalizedKey v)) as [->|Hk].
  - rewrite worker_step_get_same. now rewrite orb_true_r.
  - rewrite worker_step_get_other by assumption. now rewrite orb_false_r.
Qed.

Lemma worker_step_keys (m : JsMap.t) (v : FieldVisit) :
  JsMap.keys (worker_step m v)
  = if JsMap.has (normalizedKey v) m then JsMap.keys m
    else (JsMap.keys m ++ [normalizedKey v])%list.
Proof.
  unfold worker_step.
  destruct (JsMap.has (normalizedKey v) m) eqn:Eh; simpl.
  - pose proof Eh as Eg. rewrite has_get in Eg.
    destruct (JsMap.get (normalizedKey v) m); [|discriminate].
    now rewrite keys_set, Eh.
  - rewrite get_set_eq, keys_set, has_get, get_set_eq.
    now rewrite keys_set, Eh.
Qed.

Lemma fold_step_keys (l : list FieldVisit) (m : JsMap.t) :
  JsMap.keys (fold_left worker_step l m)
  = (JsMap.keys m
     ++ filter (fun k => negb (JsMap.has k m)) (first_keys l))%list.
Proof.
  revert m. induction l as [|v l IH]; intros m; simpl.
  - now rewrite app_nil_r.
  - rewrite IH, worker_step_keys.
    destruct (JsMap.has (normalizedKey v) m) eqn:Eh; simpl.
    + f_equal. rewrite filter_filter. apply filter_ext. intros k.
      rewrite worker_step_has, negb_orb. apply andb_comm.
    + rewrite <- app_assoc. simpl. do 2 f_equal.
      rewrite filter_filter. apply filter_ext. intros k.
      rewrite worker_step_has, negb_orb. apply andb_comm.
Qed.

Lemma first_keys_In (l : list FieldVisit) (k : string) :
  In k (first_keys l) <-> exists v, In v l /\ normalizedKey v = k.
Proof.
  induction l as [|v l IH]; simpl.
  - split; [contradiction | intros [? [[] _]]].
  - rewrite filter_In, IH, negb_true_iff, String.eqb_neq. split.
    + intros [<-|[[x [Hx Hk]] _]]; [exists v; tauto | exists x; tauto].
    + intros [x [[<-|Hx] Hk]]; [now left|].
      destruct (string_dec (normalizedKey v) k) as [Heq|Hne]; [now left|].
      right. split; [exists x; tauto | congruence].
Qed.


Lemma entry_key_name (visits : list FieldVisit) (k : string) (s : WorkerStat) :
  In (k, s) (worker_map visits) -> k = Js.toLowerCase (ws_name s).
Proof.
  intros Hin. apply worker_map_entry in Hin.
  destruct (group k visits) as [|v0 rest] eqn:Eg; simpl in Hin; [discriminate|].
  injection Hin as <-. cbn [ws_name].
  assert (Hv0 : In v0 (group k visits)) by (rewrite Eg; now left).
  apply group_member in Hv0. destruct Hv0 as [_ <-]. reflexivity.
Qed.

Lemma find_by_name (m : JsMap.t) (k : string) (s : WorkerStat) :
  NoDup (JsMap.keys m) ->
  (forall k' s', In (k', s') m -> k' = Js.toLowerCase (ws_name s')) ->
  In (k, s) m ->
  find (fun w => String.eqb (ws_name w) (ws_name s)) (JsMap.values m) = Some s.
Proof.
  induction m as [|[k0 s0] m IH]; simpl; intros Hnd Hkey Hin; [contradiction|].
  inversion Hnd as [|? ? Hk0 Hnd']; subst.
  destruct (String.eqb_spec (ws_name s0) (ws_name s)) as [Heq|Hne].
  - destruct Hin as [Hp|Hin]; [now injection Hp as _ ->|].
    exfalso. apply Hk0.
    rewrite (Hkey k0 s0 (or_introl eq_refl)), Heq,
      <- (Hkey k s (or_intror Hin)).
    change k with (fst (k, s)). now apply in_map.
  - destruct Hin as [Hp|Hin]; [injection Hp as _ ->; congruence|].
    apply IH; [exact Hnd' | | exact Hin].
    intros k' s' H'. apply Hkey. now right.
Qed.

(** X4: the display names of the rollup entries are pairwise distinct, and
    selecting a worker by the name shown finds that worker's own entry: the
    profile shows the size of the worker's group as "Total Visits". *)
Theorem selectedStats_finds_entry (visits : list FieldVisit) :
  NoDup (map ws_name (workerStats visits))
  /\ forall k s, In (k, s) (worker_map visits) ->
       selectedStats visits (ws_name s) = Some s
       /\ profile_total visits (ws_name s) = List.length (group k visits).
Proof.
  split.
  - apply (NoDup_map_inv Js.toLowerCase).
    unfold workerStats, JsMap.values. rewrite !map_map.
    rewrite <- (map_ext_in fst); [apply worker_map_NoDup|].
    intros [k s] Hin. simpl. now apply entry_key_name with (visits := visits).
  - intros k s Hin.
    assert (Hf : selectedStats visits (ws_name s) = Some s).
    { unfold selectedStats, workerStats.
      apply find_by_name with (k := k);
        [apply worker_map_NoDup | | exact Hin].
      intros k' s'. apply entry_key_name. }
    split; [exact Hf|]. unfold profile_total. rewrite Hf.
    apply worker_map_entry in Hin.
    destruct (group k visits) as [|v0 rest]; simpl in Hin; [discriminate|].
    now injection Hin as <-.
Qed.

Lemma selectedStats_finds_entry_witness :
  profile_total janes "Jane" = 3%nat.
Proof.
  destruct (selectedStats_finds_entry janes) as [_ H].
  assert (Hin : In ("jane",
                    {| ws_name := "Jane"; ws_total := 3; ws_converted := 1;
                       ws_follow_up := 1; ws_rejected := 1;
                       ws_phone := Some "9876543210" |}) (worker_map janes))
    by (vm_compute; left; reflexivity).
  destruct (H _ _ Hin) as [_ Ht].
  exact Ht.
Defined.

(** ** The recent assignments of a selected worker *)

Lemma or_str_empty (s : string) : Js.or_str s EmptyString = s.
Proof. now destruct s. Qed.

(** X5: for a worker of the rollup whose key is neither empty nor
    "unknown", the profile's "Recent Assignments" are the first five records
    of that worker's group. *)
Theorem recentAssignments_of_entry (visits : list FieldVisit) (k : string)
    (s : WorkerStat) :
  In (k, s) (worker_map visits) ->
  k <> "unknown" -> k <> EmptyString ->
  recentAssignments visits (ws_name s) = firstn 5 (group k visits).
Proof.
  intros Hin Hunk Hemp. unfold recentAssignments, group.
  rewrite <- (entry_key_name _ _ _ Hin). f_equal.
  apply filter_ext. intros v. rewrite or_str_empty.
  unfold normalizedKey, originalName, Js.or_str.
  destruct (worker_name v) as [|c r]; [|reflexivity].
  change (Js.truthy EmptyString) with false. cbv iota.
  change (Js.toLowerCase (Js.trim EmptyString)) with EmptyString.
  change (Js.toLowerCase (Js.trim "Unknown")) with "unknown".
  destruct (String.eqb_spec EmptyString k),
    (String.eqb_spec "unknown" k); congruence.
Qed.

Lemma recentAssignments_of_entry_witness :
  recentAssignments janes "Jane" = janes.
Proof.
  change (recentAssignments janes "Jane" = firstn 5 (group "jane" janes)).
  apply (@recentAssignments_of_entry janes "jane"
           {| ws_name := "Jane"; ws_total := 3; ws_converted := 1;
              ws_follow_up := 1; ws_rejected := 1;
              ws_phone := Some "9876543210" |}).
  - vm_compute. left. reflexivity.
  - discriminate.
  - discriminate.
Defined.

Lemma filter_none {A} (p : A -> bool) (l : list A) :
  (forall x, In x l -> p x = false) -> filter p l = [].
Proof.
  induction l as [|x l IH]; simpl; intros H; [reflexivity|].
  rewrite (H x) by now left. apply IH. intros y Hy. apply H. now right.
Qed.

Lemma filter_all {A} (p : A -> bool) (l : list A) :
  (forall x, In x l -> p x = true) -> filter p l = l.
Proof.
  induction l as [|x l IH]; simpl; intros H; [reflexivity|].
  rewrite (H x) by now left. f_equal. apply IH. intros y Hy. apply H. now right.
Qed.

Lemma first_keys_single (l : list FieldVisit) (k : string) :
  l <> [] -> (forall v, In v l -> normalizedKey v = k) -> first_keys l = [k].
Proof.
  destruct l as [|v l]; [congruence|]. intros _ Hall. simpl.
  rewrite (Hall v) by now left. f_equal.
  apply filter_none. intros k' Hk'.
  apply first_keys_In in Hk'. destruct Hk' as [x [Hx <-]].
  rewrite (Hall x) by now right. now rewrite String.eqb_refl.
Qed.

(** X6: when no record carries a worker name, the rollup shows them all
    under the single entry "Unknown", yet the recent assignments of that
    entry are empty: the profile filter does not apply the "Unknown"
    default. *)
Theorem recentAssignments_unknown_empty (visits : list FieldVisit) :
  visits <> [] ->
  (forall v, In v visits -> worker_name v = EmptyString) ->
  exists s, workerStats visits = [s]
            /\ ws_name s = "Unknown"
            /\ ws_total s = List.length visits
            /\ recentAssignments visits (ws_name s) = [].
Proof.
  intros Hne Hall.
  assert (Hkey : forall v, In v visits -> normalizedKey v = "unknown").
  { intros v Hv. unfold normalizedKey, originalName.
    now rewrite (Hall v Hv). }
  assert (Hkeys : JsMap.keys (worker_map visits) = ["unknown"]).
  { unfold worker_map. rewrite fold_step_keys. simpl. rewrite filter_true.
    now apply first_keys_single. }
  destruct (worker_map visits) as [|[k s] [|p m]] eqn:Em; try discriminate.
  injection Hkeys as ->.
  assert (Hin : In ("unknown", s) (worker_map visits))
    by (rewrite Em; now left).
  apply worker_map_entry in Hin.
  assert (Hg : group "unknown" visits = visits).
  { unfold group. apply filter_all. intros v Hv.
    rewrite (Hkey v Hv). apply String.eqb_refl. }
  rewrite Hg in Hin.
  destruct visits as [|v0 rest]; [congruence|]. simpl in Hin.
  injection Hin as <-. eexists. unfold workerStats. rewrite Em.
  split; [reflexivity|]. cbn [ws_name ws_total].
  split; [|split; [reflexivity|]].
  - unfold originalName. now rewrite (Hall v0) by now left.
  - unfold originalName. rewrite (Hall v0) by now left.
    unfold recentAssignments. rewrite filter_none; [reflexivity|].
    intros v Hv. now rewrite (Hall v Hv).
Qed.

Lemma recentAssignments_unknown_empty_witness :
  exists s, workerStats nameless = [s]
            /\ ws_name s = "Unknown"
            /\ ws_total s = 2%nat
            /\ recentAssignments nameless (ws_name s) = [].
Proof.
  apply (@recentAssignments_unknown_empty nameless).
  - discriminate.
  - intros v [<-|[<-|[]]]; reflexivity.
Defined.

(** ** The table against the cards; refining a search *)

Lemma append_assoc (a b c : string) : (a ++ b) ++ c = a ++ (b ++ c).
Proof. induction a as [|x a IH]; simpl; [|rewrite IH]; reflexivity. Qed.

Lemma includes_trans (hay mid needle : string) :
  Js.includes hay mid = true -> Js.includes mid needle = true ->
  Js.includes hay needle = true.
Proof.
  rewrite !includes_substring.
  intros [a [b ->]] [c [d ->]].
  exists (a ++ c), (d ++ b). now rewrite !append_assoc.
Qed.

(** X7: the status selector and the search commute: the table of one status
    is the status' share of the table of all statuses; the three shares
    add up to it; and with no search term the table opened from a status
    card has as many rows as the card's count. *)
Theorem filteredVisits_status_share (visits : list FieldVisit)
    (search : string) :
  (forall st,
     filteredVisits visits (only st) search
     = filter (has_status st) (filteredVisits visits all search))
  /\ (List.length (filteredVisits visits (only follow_up) search)
      + List.length (filteredVisits visits (only converted) search)
      + List.length (filteredVisits visits (only rejected) search)
      = List.length (filteredVisits visits all search))%nat
  /\ List.length (filteredVisits visits (only follow_up) EmptyString)
     = st_follow_up (stats visits)
  /\ List.length (filteredVisits visits (only converted) EmptyString)
     = st_converted (stats visits)
  /\ List.length (filteredVisits visits (only rejected) EmptyString)
     = st_rejected (stats visits)
  /\ filteredVisits visits all EmptyString = visits.
Proof.
  assert (Hshare : forall st,
             filteredVisits visits (only st) search
             = filter (has_status st) (filteredVisits visits all search)).
  { intros st. rewrite !filteredVisits_filter, filter_filter.
    apply filter_ext. intros v. unfold kept, has_status. simpl.
    apply andb_comm. }
  split; [exact Hshare|]. split.
  - rewrite !Hshare. apply tally_partition.
  - repeat split.
Qed.

Lemma search_hit_weaken (s2 s1 : string) (v : FieldVisit) :
  Js.includes s2 s1 = true ->
  search_hit s2 v = true -> search_hit s1 v = true.
Proof.
  intros H12. unfold search_hit.
  rewrite !orb_true_iff.
  intros [[[H|H]|H]|H].
  - left. left. left. now apply includes_trans with (mid := s2).
  - left. left. right. now apply includes_trans with (mid := s2).
  - left. right. destruct (client_phone v) as [p|]; [|discriminate].
    apply andb_true_iff in H. destruct H as [Ht Hi].
    rewrite Ht. now apply includes_trans with (mid := s2).
  - right. destruct (client_email v) as [e|]; [|discriminate].
    apply andb_true_iff in H. destruct H as [Ht Hi].
    rewrite Ht. now apply includes_trans with (mid := s2).
Qed.

Lemma kept_weaken (sel : StatusFilter) (s1 s2 : string) (v : FieldVisit) :
  Js.includes (Js.toLowerCase s2) (Js.toLowerCase s1) = true ->
  kept sel s2 v = true -> kept sel s1 v = true.
Proof.
  intros H12. unfold kept. rewrite !andb_true_iff. intros [Hst Hs].
  split; [exact Hst|].
  destruct (Js.truthy s1) eqn:E1; [|reflexivity].
  destruct (Js.truthy s2) eqn:E2.
  - now apply search_hit_weaken with (s2 := Js.toLowerCase s2).
  - destruct s2; [|discriminate]. destruct s1; discriminate.
Qed.

(** X8: lengthening the search term only narrows the table: when the new
    term contains the old one (case ignored), searching the new term within
    the old result gives the same rows as searching it in the whole list,
    and every row of the new result was a row of the old one. *)
Theorem filteredVisits_refine (visits : list FieldVisit) (sel : StatusFilter)
    (s1 s2 : string) :
  Js.includes (Js.toLowerCase s2) (Js.toLowerCase s1) = true ->
  filteredVisits (filteredVisits visits sel s1) sel s2
  = filteredVisits visits sel s2
  /\ forall v, In v (filteredVisits visits sel s2) ->
               In v (filteredVisits visits sel s1).
Proof.
  intros H12. rewrite !filteredVisits_filter. split.
  - rewrite filter_filter. apply filter_ext. intros v.
    destruct (kept sel s2 v) eqn:E2; [|apply andb_false_r].
    now rewrite (kept_weaken sel s1 s2 v H12 E2).
  - intros v. rewrite !filter_In. intros [Hin Hk]. split; [exact Hin|].
    now apply kept_weaken with (s2 := s2).
Qed.

Lemma filteredVisits_refine_witness :
  filteredVisits (filteredVisits [lettered_phone] all "SUN") all "Sunrise"
  = filteredVisits [lettered_phone] all "Sunrise".
Proof.
  assert (Hterm : Js.includes (Js.toLowerCase "Sunrise") (Js.toLowerCase "SUN")
                  = true) by (vm_compute; reflexivity).
  destruct (@filteredVisits_refine [lettered_phone] all "SUN" "Sunrise" Hterm)
    as [Hsame _].
  exact Hsame.
Defined.

(** ** Phone input *)

Lemma strip_all_digits (value : string) :
  all_digits (strip_non_digits value) = true.
Proof.
  induction value as [|c r IH]; simpl; [reflexivity|].
  destruct (is_digit c) eqn:E; simpl; [rewrite E|]; exact IH.
Qed.

Lemma strip_digits_id (s : string) :
  all_digits s = true -> strip_non_digits s = s.
Proof.
  induction s as [|c r IH]; simpl; [reflexivity|].
  intros H. apply andb_true_iff in H. destruct H as [Hc Hr].
  now rewrite Hc, IH.
Qed.

Lemma slice0_all_digits (n : nat) (s : string) :
  all_digits s = true -> all_digits (slice0 n s) = true.
Proof.
  revert s. induction n as [|n IH]; intros [|c r]; simpl; try reflexivity.
  intros H. apply andb_true_iff in H. destruct H as [Hc Hr].
  now rewrite Hc, IH.
Qed.

Lemma slice0_length (n : nat) (s : string) :
  String.length (slice0 n s) = Nat.min n (String.length s).
Proof.
  revert s. induction n as [|n IH]; intros [|c r]; simpl; try reflexivity.
  now rewrite IH.
Qed.

Lemma slice0_short (n : nat) (s : string) :
  (String.length s <= n)%nat -> slice0 n s = s.
Proof.
  revert s. induction n as [|n IH]; intros [|c r]; simpl; try reflexivity.
  - lia.
  - intros H. rewrite IH; [reflexivity | lia].
Qed.

Lemma truthy_length (s : string) :
  Js.truthy s = negb (Nat.eqb (String.length s) 0).
Proof. now destruct s. Qed.

(** X9: what a phone field keeps of a typed value consists of digits only,
    is at most 10 characters long, is left alone by a second pass, and is
    the value itself when that is a string of exactly 10 digits. *)
Theorem numericValue_digits (value : string) :
  all_digits (numericValue value) = true
  /\ (String.length (numericValue value) <= 10)%nat
  /\ String.length (numericValue value)
     = Nat.min 10 (String.length (strip_non_digits value))
  /\ numericValue (numericValue value) = numericValue value
  /\ (ten_digits value = true -> numericValue value = value).
Proof.
  unfold numericValue.
  assert (Hd : all_digits (slice0 10 (strip_non_digits value)) = true)
    by apply slice0_all_digits, strip_all_digits.
  split; [exact Hd|]. split; [rewrite slice0_length; lia|].
  split; [apply slice0_length|]. split.
  - rewrite (strip_digits_id _ Hd). apply slice0_short.
    rewrite slice0_length. lia.
  - unfold ten_digits. intros H. apply andb_true_iff in H.
    destruct H as [Hl Ha]. apply Nat.eqb_eq in Hl.
    rewrite (strip_digits_id _ Ha). apply slice0_short. lia.
Qed.

Lemma numericValue_digits_witness :
  numericValue "9876543210" = "9876543210".
Proof.
  destruct (numericValue_digits "9876543210") as (_ & _ & _ & _ & H).
  apply H. reflexivity.
Defined.

Lemma bad_phone_numericValue (value : string) :
  bad_phone (Some (numericValue value)) = false
  <-> (String.length (strip_non_digits value) = 0
       \/ 10 <= String.length (strip_non_digits value))%nat.
Proof.
  unfold bad_phone, numericValue. rewrite truthy_length, slice0_length.
  destruct (Nat.eqb_spec (Nat.min 10 (String.length (strip_non_digits value))) 0),
    (Nat.eqb_spec (Nat.min 10 (String.length (strip_non_digits value))) 10);
    simpl; split; intros H; try discriminate; try reflexivity; lia.
Qed.

Lemma error_None (b : bool) :
  (if b then Some "10 digits required" else None) = None <-> b = false.
Proof. destruct b; split; congruence. Qed.

(** X10: a value typed into a phone field passes [validatePhones] exactly
    when it holds no digit at all or at least ten digits; and the form is
    valid exactly when neither phone field carries an error. *)
Theorem phone_input_validates (value : string) (prev : FormData) :
  let digits := String.length (strip_non_digits value) in
  (err_worker_phone
     (fst (validatePhones (handlePhoneInput field_worker_phone value prev)))
   = None <-> (digits = 0 \/ 10 <= digits)%nat)
  /\ (err_client_phone
        (fst (validatePhones (handlePhoneInput field_client_phone value prev)))
      = None <-> (digits = 0 \/ 10 <= digits)%nat)
  /\ forall formData,
       snd (validatePhones formData) = true
       <-> err_worker_phone (fst (validatePhones formData)) = None
           /\ err_client_phone (fst (validatePhones formData)) = None.
Proof.
  cbv zeta. split; [|split].
  - unfold validatePhones; cbn [fst err_worker_phone handlePhoneInput fd_worker_phone].
    rewrite error_None. apply bad_phone_numericValue.
  - unfold validatePhones; cbn [fst err_client_phone handlePhoneInput fd_client_phone].
    rewrite error_None. apply bad_phone_numericValue.
  - intros formData. unfold validatePhones.
    cbn [fst snd err_worker_phone err_client_phone].
    rewrite !error_None, andb_true_iff, !negb_true_iff. tauto.
Qed.

(** ** Submissions that fail, and what a successful one appends *)

(** X11: a submission whose phones do not validate is blocked: nothing is
    uploaded or written, no message is shown, the success callback is not
    scheduled; only the phone errors are set. *)
Theorem handleSubmit_blocked_by_validation (initialData : option FieldVisit)
    (formData : FormData) (location : LocationState) (photo : option File)
    (net : Network) (w : World) :
  snd (validatePhones formData) = false ->
  handleSubmit initialData formData location photo net w
  = ({| msg := None;
        phoneErrors := Some (fst (validatePhones formData));
        onSuccess_scheduled := false |}, w).
Proof.
  unfold handleSubmit. destruct (validatePhones formData) as [errors ok].
  simpl. now intros ->.
Qed.

Lemma handleSubmit_blocked_by_validation_witness :
  snd (handleSubmit None (handlePhoneInput field_client_phone "12345" sample_form)
         sample_location None all_quiet empty_world)
  = empty_world.
Proof.
  rewrite (@handleSubmit_blocked_by_validation None
             (handlePhoneInput field_client_phone "12345" sample_form)
             sample_location None all_quiet empty_world eq_refl).
  reflexivity.
Defined.

Lemma submit_body_bucket (initialData : option FieldVisit)
    (formData : FormData) (location : LocationState) (photo : option File)
    (net : Network) (w : World) :
  bucket (snd (submit_body initialData formData location photo net w))
  = match photo, upload_fault net with
    | Some p, None =>
        ("visits/" ++ now net ++ "_" ++ random_tag net ++ "."
         ++ file_ext (file_name p), p) :: bucket w
    | _, _ => bucket w
    end.
Proof.
  unfold_submit. split_submit initialData photo net; reflexivity.
Qed.

Lemma submit_body_activities_on_visit_fault (initialData : option FieldVisit)
    (formData : FormData) (location : LocationState) (photo : option File)
    (net : Network) (w : World) :
  visit_fault net <> None ->
  tbl_visit_activities
    (snd (submit_body initialData formData location photo net w))
  = tbl_visit_activities w.
Proof.
  unfold_submit. split_submit initialData photo net; intros H;
    try reflexivity; now elim H.
Qed.

(** X12: when the visit insert or update fails, the form shows the store's
    error message and does not schedule the success callback; the visits,
    activities and users tables are left as they were, no activity entry is
    appended; a photo uploaded before the write stays in the bucket. *)
Theorem handleSubmit_visit_write_fails (initialData : option FieldVisit)
    (formData : FormData) (location : LocationState) (photo : option File)
    (net : Network) (w : World) (e : string) :
  snd (validatePhones formData) = true ->
  visit_fault net = Some e ->
  let r := handleSubmit initialData formData location photo net w in
  msg (fst r) = Some (error_msg, e)
  /\ onSuccess_scheduled (fst r) = false
  /\ tbl_visits (snd r) = tbl_visits w
  /\ tbl_visit_activities (snd r) = tbl_visit_activities w
  /\ tbl_users (snd r) = tbl_users w
  /\ bucket (snd r)
     = match photo, upload_fault net with
       | Some p, None =>
           ("visits/" ++ now net ++ "_" ++ random_tag net ++ "."
            ++ file_ext (file_name p), p) :: bucket w
       | _, _ => bucket w
       end.
Proof.
  intros Hok Hfault r. subst r.
  rewrite handleSubmit_world, Hok.
  rewrite submit_body_visits, Hfault, submit_body_users, submit_body_bucket.
  rewrite submit_body_activities_on_visit_fault by (rewrite Hfault; discriminate).
  pose proof (submit_body_result initialData formData location photo net w) as Hres.
  rewrite Hfault in Hres.
  unfold handleSubmit.
  destruct (validatePhones formData) as [errors ok]. simpl in Hok. subst ok.
  destruct (submit_body initialData formData location photo net w) as [[u|e'] w'];
    simpl in *; [discriminate|]. injection Hres as ->.
  repeat split.
Qed.

Lemma handleSubmit_visit_write_fails_witness :
  msg (fst (handleSubmit None sample_form sample_location (Some sample_photo)
              visit_fails empty_world))
  = Some (error_msg, "permission denied for table visits")
  /\ bucket (snd (handleSubmit None sample_form sample_location
                    (Some sample_photo) visit_fails empty_world))
     = [("visits/1767000000000_k3x9q.jpg", sample_photo)].
Proof.
  destruct (@handleSubmit_visit_write_fails None sample_form sample_location
              (Some sample_photo) visit_fails empty_world
              "permission denied for table visits" eq_refl eq_refl)
    as (Hm & _ & _ & _ & _ & Hb).
  split; [exact Hm | exact Hb].
Defined.

(** X13: a photo whose upload fails is dropped without notice: the
    submission runs exactly as the same submission without a photo. *)
Theorem handleSubmit_upload_failure_ignored (initialData : option FieldVisit)
    (formData : FormData) (location : LocationState) (p : File)
    (net : Network) (w : World) (e : string) :
  upload_fault net = Some e ->
  handleSubmit initialData formData location (Some p) net w
  = handleSubmit initialData formData location None net w.
Proof.
  intros Hup. unfold handleSubmit, submit_body, bind, ret, Supabase.upload.
  rewrite Hup. reflexivity.
Qed.

Lemma handleSubmit_upload_failure_ignored_witness :
  handleSubmit None sample_form sample_location (Some sample_photo)
    upload_fails empty_world
  = handleSubmit None sample_form sample_location None upload_fails empty_world.
Proof.
  apply (@handleSubmit_upload_failure_ignored None sample_form sample_location
           sample_photo upload_fails empty_world "Bucket not found").
  reflexivity.
Defined.

Lemma submit_body_activities_on_success (initialData : option FieldVisit)
    (formData : FormData) (location : LocationState) (photo : option File)
    (net : Network) (w : World) :
  visit_fault net = None -> activity_fault net = None ->
  tbl_visit_activities
    (snd (submit_body initialData formData location photo net w))
  = (tbl_visit_activities w
     ++ [{| va_id := Some (activity_row_id net);
            visit_id := match update_target initialData with
                        | Some row_id => row_id
                        | None => visit_row_id net
                        end;
            action_type := match update_target initialData with
                           | Some _ => updated
                           | None => created
                           end;
            field_name := Some "status";
            old_value := None;
            new_value := Some (status_str (fd_status formData));
            note := match update_target initialData with
                    | Some _ => "Visit updated. Status: "
                    | None => "New visit created with status: "
                    end ++ status_str (fd_status formData);
            performed_by := fd_worker_name formData;
            va_created_at := Some (now net) |}])%list.
Proof.
  unfold_submit. split_submit initialData photo net; intros H1 H2;
    try discriminate; reflexivity.
Qed.

(** X14: a submission whose two writes succeed appends exactly one activity
    entry: of kind updated for the id of the edited visit, of kind created
    for the id the store gave the new visit; its field is "status", its new
    value the submitted status, its actor the worker name. *)
Theorem handleSubmit_appends_activity (initialData : option FieldVisit)
    (formData : FormData) (location : LocationState) (photo : option File)
    (net : Network) (w : World) :
  snd (validatePhones formData) = true ->
  visit_fault net = None -> activity_fault net = None ->
  tbl_visit_activities
    (snd (handleSubmit initialData formData location photo net w))
  = (tbl_visit_activities w
     ++ [{| va_id := Some (activity_row_id net);
            visit_id := match update_target initialData with
                        | Some row_id => row_id
                        | None => visit_row_id net
                        end;
            action_type := match update_target initialData with
                           | Some _ => updated
                           | None => created
                           end;
            field_name := Some "status";
            old_value := None;
            new_value := Some (status_str (fd_status formData));
            note := match update_target initialData with
                    | Some _ => "Visit updated. Status: "
                    | None => "New visit created with status: "
                    end ++ status_str (fd_status formData);
            performed_by := fd_worker_name formData;
            va_created_at := Some (now net) |}])%list.
Proof.
  intros Hok Hv Ha. rewrite handleSubmit_world, Hok.
  now apply submit_body_activities_on_success.
Qed.

Lemma handleSubmit_appends_activity_witness :
  map (fun a => (action_type a, visit_id a, new_value a))
      (tbl_visit_activities
         (snd (handleSubmit (Some stored_visit) sample_form sample_location
                 None all_quiet one_visit)))
  = [(updated, "v-7", Some "follow_up")].
Proof.
  rewrite (@handleSubmit_appends_activity (Some stored_visit) sample_form
             sample_location None all_quiet one_visit eq_refl eq_refl eq_refl).
  reflexivity.
Defined.

(** ** Updating a stored visit *)

Lemma id_is_spec (row_id : string) (row : FieldVisit) :
  Supabase.id_is row_id row = true <-> id row = Some row_id.
Proof.
  unfold Supabase.id_is. destruct (id row) as [i|].
  - rewrite String.eqb_eq. split; congruence.
  - split; discriminate.
Qed.

Lemma update_rows_facts (row_id : string) (vd : FieldVisit)
    (rows : list FieldVisit) :
  let rows' := map (fun row => if Supabase.id_is row_id row
                               then Supabase.merge row vd else row) rows in
  map id rows' = map id rows
  /\ map created_at rows' = map created_at rows
  /\ (forall row, In row rows -> id row <> Some row_id -> In row rows')
  /\ (forall row, In row rows -> id row = Some row_id ->
                  In (Supabase.merge row vd) rows')
  /\ ((forall row, In row rows -> id row <> Some row_id) -> rows' = rows).
Proof.
  cbv zeta. repeat split.
  - rewrite map_map. apply map_ext. intros row.
    now destruct (Supabase.id_is row_id row).
  - rewrite map_map. apply map_ext. intros row.
    now destruct (Supabase.id_is row_id row).
  - intros row Hin Hid. apply in_map_iff. exists row. split; [|exact Hin].
    destruct (Supabase.id_is row_id row) eqn:E; [|reflexivity].
    apply id_is_spec in E. contradiction.
  - intros row Hin Hid. apply in_map_iff. exists row. split; [|exact Hin].
    apply id_is_spec in Hid. now rewrite Hid.
  - intros Hnone. rewrite <- (map_id rows) at 2. apply map_ext_in.
    intros row Hin. destruct (Supabase.id_is row_id row) eqn:E; [|reflexivity].
    apply id_is_spec in E. now elim (Hnone row Hin).
Qed.

(** X15: a successful update keeps the number of rows and every row's id
    and creation time; rows of another id are untouched and each row of
    the edited id takes the submitted columns. When no stored row has the
    edited id the table is left as it was, and the form still reports
    "Visit updated successfully!". *)
Theorem handleSubmit_update_in_place (init : FieldVisit) (row_id : string)
    (formData : FormData) (location : LocationState) (photo : option File)
    (net : Network) (w : World) :
  snd (validatePhones formData) = true ->
  visit_fault net = None ->
  or_null (id init) = Some row_id ->
  let r := handleSubmit (Some init) formData location photo net w in
  let vd := visitData formData location
              (written_photo_url (Some init) photo net) in
  map id (tbl_visits (snd r)) = map id (tbl_visits w)
  /\ map created_at (tbl_visits (snd r)) = map created_at (tbl_visits w)
  /\ (forall row, In row (tbl_visits w) -> id row <> Some row_id ->
                  In row (tbl_visits (snd r)))
  /\ (forall row, In row (tbl_visits w) -> id row = Some row_id ->
                  In (Supabase.merge row vd) (tbl_visits (snd r)))
  /\ ((forall row, In row (tbl_visits w) -> id row <> Some row_id) ->
      tbl_visits (snd r) = tbl_visits w
      /\ msg (fst r) = Some (success, "Visit updated successfully!")).
Proof.
  intros Hok Hv Hid r vd. subst r vd.
  destruct (@handleSubmit_view (Some init) formData location photo net w
              Hok Hv) as [Hmsg _].
  rewrite handleSubmit_world, Hok, submit_body_visits, Hv.
  unfold committed_visits, update_target. rewrite Hid.
  destruct (update_rows_facts row_id
              (visitData formData location
                 (written_photo_url (Some init) photo net))
              (tbl_visits w)) as (H1 & H2 & H3 & H4 & H5).
  repeat split; try assumption. now apply H5.
Qed.

Lemma handleSubmit_update_in_place_witness :
  tbl_visits
    (snd (handleSubmit (Some stored_visit) sample_form sample_location None
            all_quiet empty_world))
  = []
  /\ msg (fst (handleSubmit (Some stored_visit) sample_form sample_location
                 None all_quiet empty_world))
     = Some (success, "Visit updated successfully!").
Proof.
  destruct (@handleSubmit_update_in_place stored_visit "v-7" sample_form
              sample_location None all_quiet empty_world
              eq_refl eq_refl eq_refl) as (_ & _ & _ & _ & H).
  apply H. intros row [].
Defined.

(** ** Location capture *)

(** X16: when the position request fails (no geolocation support, or the
    request is refused) the coordinates captured before are kept, so the
    record a later submission writes carries them unchanged; a successful
    request replaces them and clears the error; in every case the request
    ends with the loading flag off. *)
Theorem captureLocation_keeps_coordinates (answer : GeoAnswer)
    (prev : LocationState) (formData : FormData) (url : option string) :
  loc_loading (captureLocation answer prev) = false
  /\ (loc_error (captureLocation answer prev) = None
      <-> exists lat lng, answer = geo_position lat lng)
  /\ match answer with
     | geo_position lat lng =>
         latitude (visitData formData (captureLocation answer prev) url)
         = Some lat
         /\ longitude (visitData formData (captureLocation answer prev) url)
            = Some lng
     | _ =>
         visitData formData (captureLocation answer prev) url
         = visitData formData prev url
     end.
Proof.
  destruct answer as [|lat lng|]; simpl; repeat split;
    try discriminate; try (intros [? [? ?]]; discriminate); eauto.
Qed.

(** ** Cleaning an identifier *)

Lemma lower_char_idem (c : ascii) :
  Js.lower_char (Js.lower_char c) = Js.lower_char c.
Proof. destruct c as [[] [] [] [] [] [] [] []]; reflexivity. Qed.

Lemma is_space_lower (c : ascii) :
  Js.is_space (Js.lower_char c) = Js.is_space c.
Proof. destruct c as [[] [] [] [] [] [] [] []]; reflexivity. Qed.

Lemma toLowerCase_idem (s : string) :
  Js.toLowerCase (Js.toLowerCase s) = Js.toLowerCase s.
Proof.
  induction s as [|c r IH]; simpl; [reflexivity|].
  now rewrite lower_char_idem, IH.
Qed.

Lemma toLowerCase_append (a b : string) :
  Js.toLowerCase (a ++ b) = Js.toLowerCase a ++ Js.toLowerCase b.
Proof. induction a as [|c a IH]; simpl; [|rewrite IH]; reflexivity. Qed.

Lemma trimStart_lower (s : string) :
  Js.trimStart (Js.toLowerCase s) = Js.toLowerCase (Js.trimStart s).
Proof.
  induction s as [|c r IH]; simpl; [reflexivity|].
  rewrite is_space_lower. now destruct (Js.is_space c).
Qed.

Lemma trimEnd_lower (s : string) :
  Js.trimEnd (Js.toLowerCase s) = Js.toLowerCase (Js.trimEnd s).
Proof.
  induction s as [|c r IH]; simpl; [reflexivity|].
  rewrite IH, is_space_lower.
  destruct (Js.trimEnd r); simpl; [now destruct (Js.is_space c) | reflexivity].
Qed.

Lemma trim_lower (s : string) :
  Js.trim (Js.toLowerCase s) = Js.toLowerCase (Js.trim s).
Proof. unfold Js.trim. now rewrite trimStart_lower, trimEnd_lower. Qed.

Lemma trimStart_length (s : string) :
  (String.length (Js.trimStart s) <= String.length s)%nat.
Proof.
  induction s as [|c r IH]; simpl; [lia|].
  destruct (Js.is_space c); simpl; lia.
Qed.

Lemma trimEnd_idem (s : string) : Js.trimEnd (Js.trimEnd s) = Js.trimEnd s.
Proof.
  induction s as [|c r IH]; simpl; [reflexivity|].
  destruct (Js.trimEnd r) as [|d r'] eqn:E.
  - destruct (Js.is_space c) eqn:Ec; simpl; [reflexivity | now rewrite Ec].
  - simpl in *. now rewrite IH.
Qed.

Lemma trimStart_trimEnd (t : string) :
  Js.trimStart t = t -> Js.trimStart (Js.trimEnd t) = Js.trimEnd t.
Proof.
  destruct t as [|c r]; simpl; [reflexivity|].
  destruct (Js.is_space c) eqn:Ec.
  - intros H. pose proof (trimStart_length r) as Hl.
    rewrite H in Hl. simpl in Hl. lia.
  - intros _. destruct (Js.trimEnd r); simpl; now rewrite Ec.
Qed.

Lemma trimStart_idem (s : string) :
  Js.trimStart (Js.trimStart s) = Js.trimStart s.
Proof.
  induction s as [|c r IH]; simpl; [reflexivity|].
  destruct (Js.is_space c) eqn:Ec; [exact IH | simpl; now rewrite Ec].
Qed.

Lemma trim_idem (s : string) : Js.trim (Js.trim s) = Js.trim s.
Proof.
  unfold Js.trim.
  rewrite (@trimStart_trimEnd (Js.trimStart s) (trimStart_idem s)).
  apply trimEnd_idem.
Qed.

(** The cleaned identifier is a fixed point of the cleaning. *)
Lemma clean_idem (s : string) :
  Js.toLowerCase (Js.trim (Js.toLowerCase (Js.trim s)))
  = Js.toLowerCase (Js.trim s).
Proof. now rewrite trim_lower, trim_idem, toLowerCase_idem. Qed.

(** ** More of the login check *)

Section LoginAnswers.

Context {S : Postgrest}.

Lemma handleAuth_fault (portal : Portal) (identifier password : string)
    (e : string) (w : World) :
  handleAuth portal identifier password (Some e) w
  = (AuthError not_found_msg, w).
Proof. reflexivity. Qed.

Lemma handleAuth_cases (portal : Portal) (identifier password : string)
    (fetch_fault : option string) (w : World) :
  handleAuth portal identifier password fetch_fault w
  = (match fetch_fault, matching_accounts identifier w with
     | None, user :: _ => verdict portal password user
     | _, _ => AuthError not_found_msg
     end, w).
Proof.
  destruct fetch_fault as [e|]; [apply handleAuth_fault|].
  destruct (matching_accounts identifier w) as [|user rest] eqn:Em.
  - now apply handleAuth_no_match.
  - now apply handleAuth_first_match with (rest := rest).
Qed.

(** X17: the login check never writes: whatever the portal, the
    credentials and the answer of the network, the store is left as it was;
    and the identifier is read with surrounding blanks and letter case
    ignored: two identifiers that clean to the same text, in particular an
    identifier and its cleaned form, get the same answer. *)
Theorem handleAuth_read_only_and_clean (portal : Portal)
    (identifier password : string) (fetch_fault : option string) (w : World) :
  snd (handleAuth portal identifier password fetch_fault w) = w
  /\ handleAuth portal (Js.toLowerCase (Js.trim identifier)) password
       fetch_fault w
     = handleAuth portal identifier password fetch_fault w
  /\ forall other,
       Js.toLowerCase (Js.trim other) = Js.toLowerCase (Js.trim identifier) ->
       handleAuth portal other password fetch_fault w
       = handleAuth portal identifier password fetch_fault w.
Proof.
  assert (Hsame : forall other,
             Js.toLowerCase (Js.trim other)
             = Js.toLowerCase (Js.trim identifier) ->
             handleAuth portal other password fetch_fault w
             = handleAuth portal identifier password fetch_fault w).
  { intros other Hc. rewrite !handleAuth_cases.
    unfold matching_accounts. now rewrite Hc. }
  split; [now rewrite handleAuth_cases|].
  split; [apply Hsame, clean_idem | exact Hsame].
Qed.

End LoginAnswers.

Lemma handleAuth_read_only_and_clean_witness :
  handleAuth portal_worker "  RAVI@FieldTrack.PRO " "secret1" None two_accounts
  = handleAuth portal_worker "ravi@fieldtrack.pro" "secret1" None two_accounts.
Proof.
  destruct (@handleAuth_read_only_and_clean eq_store portal_worker
              "ravi@fieldtrack.pro" "secret1" None two_accounts) as (_ & _ & H).
  apply H. reflexivity.
Defined.

(** ** The store that answers eq-conditions is lawful *)

Lemma plain_char_not_comma (c : ascii) :
  plain_char c = true -> Ascii.eqb c ","%char = false.
Proof.
  destruct c as [[] [] [] [] [] [] [] []]; intros H;
    try discriminate H; reflexivity.
Qed.

Lemma plain_no_comma (v : string) : plain v = true -> no_comma v = true.
Proof.
  induction v as [|c r IH]; simpl; [reflexivity|].
  intros H. apply andb_true_iff in H. destruct H as [Hc Hr].
  now rewrite (plain_char_not_comma c Hc), IH.
Qed.

Lemma no_comma_app (a b : string) :
  no_comma (a ++ b) = no_comma a && no_comma b.
Proof.
  induction a as [|c a IH]; simpl; [reflexivity|].
  now rewrite IH, andb_assoc.
Qed.

Lemma split_commas_last (p : string) :
  no_comma p = true -> split_commas p = [p].
Proof.
  induction p as [|c r IH]; simpl; [reflexivity|].
  intros H. apply andb_true_iff in H. destruct H as [Hc Hr].
  apply negb_true_iff in Hc. now rewrite Hc, (IH Hr).
Qed.

Lemma split_commas_more (p r : string) :
  no_comma p = true ->
  split_commas (p ++ String ","%char r) = p :: split_commas r.
Proof.
  induction p as [|c p IH]; simpl; [reflexivity|].
  intros H. apply andb_true_iff in H. destruct H as [Hc Hp].
  apply negb_true_iff in Hc. now rewrite Hc, (IH Hp).
Qed.

Lemma piece_no_comma (c : Column) (v : string) :
  plain v = true -> no_comma (column_name c ++ ".eq." ++ v) = true.
Proof.
  intros Hv. rewrite !no_comma_app, (plain_no_comma v Hv).
  now destruct c.
Qed.

Lemma parse_cond_render (c : Column) (v : string) :
  cond_ok (c, v) = true ->
  parse_cond (column_name c ++ ".eq." ++ v) = Some (c, v).
Proof.
  intros Hok. unfold parse_cond. destruct c; cbn; now rewrite Hok.
Qed.

Lemma render_cons (c : Column) (v : string) (cv : Column * string)
    (rest : list (Column * string)) :
  render ((c, v) :: cv :: rest)
  = (column_name c ++ ".eq." ++ v) ++ String ","%char (render (cv :: rest)).
Proof.
  cbn [render]. now rewrite !append_assoc.
Qed.

Lemma parse_render (conds : list (Column * string)) :
  conds <> [] -> forallb cond_ok conds = true ->
  parse_conds (split_commas (render conds)) = Some conds.
Proof.
  induction conds as [|[c v] rest IH]; [congruence|]. intros _ Hall.
  cbn [forallb] in Hall. apply andb_true_iff in Hall.
  destruct Hall as [Hok Hrest].
  assert (Hplain : plain v = true)
    by (unfold cond_ok in Hok; apply andb_true_iff in Hok; tauto).
  destruct rest as [|cv rest].
  - cbn [render]. rewrite split_commas_last by now apply piece_no_comma.
    cbn [parse_conds]. now rewrite parse_cond_render.
  - rewrite render_cons, split_commas_more by now apply piece_no_comma.
    cbn [parse_conds]. rewrite parse_cond_render by assumption.
    rewrite IH; [reflexivity | discriminate | exact Hrest].
Qed.

Lemma eq_store_lawful : lawful eq_store.
Proof.
  split.
  - intros filters rows l. cbn [or_filter eq_store].
    unfold eq_conditions_only.
    destruct (parse_conds (split_commas filters)); [|discriminate].
    intros H u Hu. injection H as <-. now apply filter_In in Hu.
  - intros conds rows Hne Hall. cbn [or_filter eq_store].
    unfold eq_conditions_only. now rewrite parse_render.
Qed.

(** ** The login lookup under the filter grammar *)

Section LoginLookup.

Context {S : Postgrest}.
Hypothesis store_lawful : lawful S.

Lemma matching_rows (identifier : string) (w : World) (u : UserProfile) :
  In u (matching_accounts identifier w) -> In u (tbl_users w).
Proof.
  unfold matching_accounts. cbv zeta.
  match goal with
  | |- context [or_filter ?f ?rows] => destruct (or_filter f rows) eqn:E
  end; [|contradiction].
  now apply (proj1 store_lawful _ _ _ E).
Qed.

(** For a plain identifier the lookup returns the accounts whose email or
    mobile equals it. *)
Lemma matching_plain (identifier : string) (w : World) :
  plain (Js.toLowerCase (Js.trim identifier)) = true ->
  matching_accounts identifier w = accounts_of identifier w.
Proof.
  intros Hp. unfold matching_accounts, accounts_of. cbv zeta.
  destruct (Js.includes (Js.toLowerCase (Js.trim identifier)) "@") eqn:Eat.
  - change ("email.eq." ++ Js.toLowerCase (Js.trim identifier))
      with (render [(col_email, Js.toLowerCase (Js.trim identifier))]).
    rewrite (proj2 store_lawful); [|discriminate|].
    + apply filter_ext. intros u. cbn. apply orb_false_r.
    + cbn [forallb]. unfold cond_ok. cbn [fst snd]. rewrite Hp.
      destruct (Js.toLowerCase (Js.trim identifier));
        [discriminate Eat | reflexivity].
  - change ("mobile.eq." ++ Js.toLowerCase (Js.trim identifier))
      with (render [(col_mobile, Js.toLowerCase (Js.trim identifier))]).
    rewrite (proj2 store_lawful); [|discriminate|].
    + apply filter_ext. intros u. cbn. apply orb_false_r.
    + cbn [forallb]. unfold cond_ok. cbn [fst snd]. now rewrite Hp.
Qed.

(** An identifier that holds a comma is read by the store as a list of
    conditions. *)
Lemma injected_lookup (w : World) :
  matching_accounts "x,role.eq.worker" w
  = filter (fun u => String.eqb (mobile u) "x"
                     || String.eqb (role_str (role u)) "worker")
           (tbl_users w).
Proof.
  unfold matching_accounts. cbv zeta.
  change (Js.toLowerCase (Js.trim "x,role.eq.worker")) with "x,role.eq.worker".
  change (Js.includes "x,role.eq.worker" "@") with false. cbv iota.
  change ("mobile.eq." ++ "x,role.eq.worker")
    with (render [(col_mobile, "x"); (col_role, "worker")]).
  rewrite (proj2 store_lawful); [|discriminate | reflexivity].
  apply filter_ext. intros u. cbn [existsb cond_holds fst snd column_text].
  now rewrite orb_false_r.
Qed.

(** C8 (a defect of the code): the comment of the lookup says it queries
    the accounts with a matching email or mobile, but the identifier is
    pasted unquoted into the or-filter. No account of the sample store has
    the mobile or the email "x,role.eq.worker", yet a login with that
    identifier is not answered not-found: the store reads the filter as
    mobile = x or role = worker, returns the worker, and the verifications
    and the login run on that account. *)
Theorem handleAuth_injected_filter :
  accounts_of "x,role.eq.worker" two_accounts = []
  /\ matching_accounts "x,role.eq.worker" two_accounts = [worker_account]
  /\ handleAuth portal_worker "x,role.eq.worker" "secret1" None two_accounts
     = (LoggedIn WORKER "Ravi", two_accounts).
Proof.
  assert (Hm : matching_accounts "x,role.eq.worker" two_accounts
               = [worker_account])
    by (rewrite injected_lookup; reflexivity).
  split; [reflexivity|]. split; [exact Hm|].
  rewrite (handleAuth_first_match portal_worker _ "secret1" _ Hm).
  reflexivity.
Qed.

(** X18: a login succeeds only on an account of the users table that is
    active, whose stored password equals the one supplied and whose role is
    the one of the portal; the role and name handed on are that account's;
    and when the cleaned identifier is plain (letters, digits, at sign, dot,
    underscore, hyphen) that account's email (identifier with an at sign) or
    mobile equals it. *)
Theorem handleAuth_success_sound (portal : Portal)
    (identifier password : string) (fetch_fault : option string)
    (w w' : World) (r : UserRole) (n : string) :
  handleAuth portal identifier password fetch_fault w = (LoggedIn r n, w') ->
  exists user,
    In user (tbl_users w)
    /\ is_active user = true
    /\ password_hash user = password
    /\ role user = r /\ name user = n
    /\ (portal = portal_worker -> r = WORKER)
    /\ (portal = portal_admin -> r = ADMIN)
    /\ fetch_fault = None /\ w' = w
    /\ (plain (Js.toLowerCase (Js.trim identifier)) = true ->
        if Js.includes (Js.toLowerCase (Js.trim identifier)) "@"
        then email user = Js.toLowerCase (Js.trim identifier)
        else mobile user = Js.toLowerCase (Js.trim identifier)).
Proof.
  rewrite handleAuth_cases. intros H.
  destruct fetch_fault as [e|]; [discriminate|].
  destruct (matching_accounts identifier w) as [|user rest] eqn:Em;
    [discriminate|].
  injection H as Hv <-.
  assert (Hin : In user (matching_accounts identifier w))
    by (rewrite Em; now left).
  assert (Hplain : plain (Js.toLowerCase (Js.trim identifier)) = true ->
            if Js.includes (Js.toLowerCase (Js.trim identifier)) "@"
            then email user = Js.toLowerCase (Js.trim identifier)
            else mobile user = Js.toLowerCase (Js.trim identifier)).
  { intros Hp. rewrite (matching_plain identifier w Hp) in Hin.
    unfold accounts_of in Hin. cbv zeta in Hin.
    apply filter_In in Hin. destruct Hin as [_ Hhit].
    destruct (Js.includes (Js.toLowerCase (Js.trim identifier)) "@");
      now apply String.eqb_eq. }
  exists user. split; [now apply matching_rows with (identifier := identifier)|].
  unfold verdict in Hv.
  destruct portal, (role user) eqn:Er, (is_active user) eqn:Ea,
    (String.eqb_spec (password_hash user) password);
    simpl in Hv; try discriminate; injection Hv as <- <-;
    repeat split; try congruence; exact Hplain.
Qed.

End LoginLookup.

Lemma handleAuth_injected_filter_witness :
  handleAuth portal_worker "x,role.eq.worker" "secret1" None two_accounts
  = (LoggedIn WORKER "Ravi", two_accounts).
Proof.
  destruct (@handleAuth_injected_filter eq_store eq_store_lawful)
    as (_ & _ & H).
  exact H.
Defined.

Lemma handleAuth_success_sound_witness :
  exists user,
    In user (tbl_users two_accounts)
    /\ password_hash user = "secret2" /\ role user = ADMIN
    /\ email user = "asha@fieldtrack.pro".
Proof.
  destruct (@handleAuth_success_sound eq_store eq_store_lawful portal_admin
              "asha@fieldtrack.pro" "secret2" None two_accounts two_accounts
              ADMIN "Asha" eq_refl)
    as (user & Hin & _ & Hp & Hr & _ & _ & _ & _ & _ & He).
  exists user. repeat split; try assumption. now apply He.
Defined.

(** ** Registration *)

Lemma truthy_ne (s : string) : Js.truthy s = true <-> s <> EmptyString.
Proof. destruct s; simpl; split; congruence. Qed.

Lemma validation_spec (formData : RegisterForm) (selectedRole : UserRole) :
  (snd (validation formData selectedRole) = true
   <-> (3 <= String.length (Js.trim (rf_name formData)))%nat
       /\ match selectedRole with
          | WORKER => ten_digits (rf_mobile formData) = true
          | ADMIN => rf_email formData <> EmptyString
                     /\ Js.includes (rf_email formData) "@" = true
          end
       /\ (6 <= String.length (rf_password formData))%nat
       /\ rf_password formData = rf_confirmPassword formData)
  /\ (snd (validation formData selectedRole) = true
      <-> fst (validation formData selectedRole) = []).
Proof.
  pose proof (truthy_ne (rf_email formData)) as Hne.
  unfold validation.
  destruct (Nat.ltb_spec (String.length (Js.trim (rf_name formData))) 3);
    destruct (Nat.ltb_spec (String.length (rf_password formData)) 6);
    destruct (String.eqb_spec (rf_password formData)
                (rf_confirmPassword formData));
    (destruct selectedRole;
     [ destruct (ten_digits (rf_mobile formData))
     | destruct (Js.truthy (rf_email formData));
       destruct (Js.includes (rf_email formData) "@") ]);
    cbn; (split; split); intros; try discriminate; try reflexivity;
    repeat match goal with H : _ /\ _ |- _ => destruct H end;
    try lia; try congruence; try tauto;
    repeat split; try assumption; try lia; try tauto.
Qed.

(** X19: the registration form is valid exactly when the trimmed name has
    at least 3 characters, the password has at least 6 and equals its
    confirmation, and, for a worker, the mobile is a string of exactly 10
    digits, for an admin, the email is non-empty and holds an at sign; it is
    valid exactly when its error list is empty. A worker needs no email, an
    admin no mobile. *)
Theorem validation_accepts (formData : RegisterForm) (selectedRole : UserRole) :
  (snd (validation formData selectedRole) = true
   <-> (3 <= String.length (Js.trim (rf_name formData)))%nat
       /\ match selectedRole with
          | WORKER => ten_digits (rf_mobile formData) = true
          | ADMIN => rf_email formData <> EmptyString
                     /\ Js.includes (rf_email formData) "@" = true
          end
       /\ (6 <= String.length (rf_password formData))%nat
       /\ rf_password formData = rf_confirmPassword formData)
  /\ (snd (validation formData selectedRole) = true
      <-> fst (validation formData selectedRole) = []).
Proof. apply validation_spec. Qed.

Section Registration.

Context {S : Postgrest}.

Lemma handleRegister_cases (formData : RegisterForm) (selectedRole : UserRole)
    (net : RegisterNetwork) (w : World) :
  handleRegister formData selectedRole net w
  = if negb (snd (validation formData selectedRole)) then (NotSubmitted, w)
    else
      match duplicate_fault net, existing_accounts formData w with
      | None, _ :: _ => (RegisterError duplicate_msg, w)
      | _, _ =>
          match insert_fault net with
          | Some e =>
              (RegisterError
                 (Js.or_str e "Registration failed. Please try again."), w)
          | None =>
              (Registered selectedRole (Js.trim (rf_name formData)),
               set_users
                 (tbl_users w ++ [new_account formData selectedRole net])%list w)
          end
      end.
Proof.
  unfold handleRegister, existing_accounts.
  destruct (negb (snd (validation formData selectedRole))); [reflexivity|].
  unfold register_body, bind, ret, throw, select_existing, insert_user.
  destruct (duplicate_fault net) as [e|]; cbn [data error fst snd].
  - destruct (insert_fault net); reflexivity.
  - case_or_filter as rows; [destruct rows|];
      cbn [data error fst snd firstn map];
      try reflexivity; destruct (insert_fault net); reflexivity.
Qed.

(** X22: when the duplicate query itself fails, the check is skipped: a
    valid form is inserted whatever accounts the store already holds. *)
Theorem handleRegister_skips_failed_check (formData : RegisterForm)
    (selectedRole : UserRole) (net : RegisterNetwork) (w : World)
    (e : string) :
  snd (validation formData selectedRole) = true ->
  duplicate_fault net = Some e ->
  insert_fault net = None ->
  handleRegister formData selectedRole net w
  = (Registered selectedRole (Js.trim (rf_name formData)),
     set_users (tbl_users w ++ [new_account formData selectedRole net])%list w).
Proof.
  intros Hv Hd Hi. rewrite handleRegister_cases, Hv, Hd, Hi. simpl.
  now destruct (existing_accounts formData w).
Qed.

End Registration.

Lemma handleRegister_skips_failed_check_witness :
  List.length
    (tbl_users
       (snd (handleRegister ravi_again WORKER check_fails two_accounts)))
  = 3%nat.
Proof.
  rewrite (@handleRegister_skips_failed_check eq_store ravi_again WORKER
             check_fails two_accounts "Failed to fetch"
             eq_refl eq_refl eq_refl).
  reflexivity.
Defined.

(** ** The duplicate query under the filter grammar *)

Lemma filter_nil_none {A} (p : A -> bool) (l : list A) (x : A) :
  filter p l = [] -> In x l -> p x = false.
Proof.
  intros Hnil Hin. destruct (p x) eqn:E; [|reflexivity].
  assert (Hf : In x (filter p l)) by (apply filter_In; now split).
  rewrite Hnil in Hf. contradiction.
Qed.

Section DuplicateQuery.

Context {S : Postgrest}.
Hypothesis store_lawful : lawful S.

(** With a plain cleaned email and a plain trimmed mobile the duplicate
    query returns the accounts with that mobile, or with that email when it
    is non-empty. *)
Lemma existing_plain (formData : RegisterForm) (w : World) :
  plain (Js.toLowerCase (Js.trim (rf_email formData))) = true ->
  plain (Js.trim (rf_mobile formData)) = true ->
  existing_accounts formData w
  = filter (same_identifiers (Js.toLowerCase (Js.trim (rf_email formData)))
                             (Js.trim (rf_mobile formData)))
           (tbl_users w).
Proof.
  intros He Hm. unfold existing_accounts, orConditions, same_identifiers.
  destruct (Js.truthy (Js.toLowerCase (Js.trim (rf_email formData)))) eqn:Et.
  - change ("email.eq." ++ Js.toLowerCase (Js.trim (rf_email formData))
            ++ ",mobile.eq." ++ Js.trim (rf_mobile formData))
      with (render [(col_email, Js.toLowerCase (Js.trim (rf_email formData)));
                    (col_mobile, Js.trim (rf_mobile formData))]).
    rewrite (proj2 store_lawful); [|discriminate|].
    + apply filter_ext. intros u.
      cbn [existsb cond_holds fst snd column_text]. now rewrite orb_false_r.
    + cbn [forallb]. unfold cond_ok. cbn [fst snd]. now rewrite He, Hm, Et.
  - change ("mobile.eq." ++ Js.trim (rf_mobile formData))
      with (render [(col_mobile, Js.trim (rf_mobile formData))]).
    rewrite (proj2 store_lawful); [|discriminate|].
    + apply filter_ext. intros u.
      cbn [existsb cond_holds fst snd column_text]. now rewrite orb_false_r.
    + cbn [forallb]. unfold cond_ok. cbn [fst snd]. now rewrite Hm.
Qed.

(** X20: a registration writes only when it succeeds: on success exactly
    the new account is appended to the users table, active, with the
    trimmed name, the cleaned email and mobile, and the password as typed;
    this needs a valid form and a working insert, and, when the duplicate
    query answered and the cleaned email and mobile are plain (letters,
    digits, at sign, dot, underscore, hyphen), no stored account with the
    same mobile or the same non-empty email. In every other case the store
    is left as it was. *)
Theorem handleRegister_writes_only_on_success (formData : RegisterForm)
    (selectedRole : UserRole) (net : RegisterNetwork) (w : World) :
  match fst (handleRegister formData selectedRole net w) with
  | Registered r n =>
      r = selectedRole /\ n = Js.trim (rf_name formData)
      /\ snd (handleRegister formData selectedRole net w)
         = set_users
             (tbl_users w ++ [new_account formData selectedRole net])%list w
      /\ snd (validation formData selectedRole) = true
      /\ insert_fault net = None
      /\ (duplicate_fault net = None ->
          plain (Js.toLowerCase (Js.trim (rf_email formData))) = true ->
          plain (Js.trim (rf_mobile formData)) = true ->
          forall u, In u (tbl_users w) ->
            same_identifiers (Js.toLowerCase (Js.trim (rf_email formData)))
                             (Js.trim (rf_mobile formData)) u = false)
  | _ => snd (handleRegister formData selectedRole net w) = w
  end.
Proof.
  rewrite handleRegister_cases.
  destruct (snd (validation formData selectedRole)); simpl; [|reflexivity].
  destruct (duplicate_fault net) as [e|];
    destruct (existing_accounts formData w) as [|x l] eqn:Ef;
    destruct (insert_fault net); simpl; try reflexivity;
    repeat split; try discriminate.
  intros _ He Hm u Hu. rewrite (existing_plain formData w He Hm) in Ef.
  now apply (filter_nil_none _ _ u Ef).
Qed.

(** X21: with a valid form, an answering duplicate query and a plain
    cleaned email and trimmed mobile, a stored account with the same
    mobile, or with the same non-empty email, makes the registration end in
    the duplicate message with nothing written. *)
Theorem handleRegister_rejects_duplicate (formData : RegisterForm)
    (selectedRole : UserRole) (net : RegisterNetwork) (w : World)
    (u : UserProfile) :
  snd (validation formData selectedRole) = true ->
  duplicate_fault net = None ->
  plain (Js.toLowerCase (Js.trim (rf_email formData))) = true ->
  plain (Js.trim (rf_mobile formData)) = true ->
  In u (tbl_users w) ->
  mobile u = Js.trim (rf_mobile formData)
  \/ (email u = Js.toLowerCase (Js.trim (rf_email formData))
      /\ email u <> EmptyString) ->
  handleRegister formData selectedRole net w
  = (RegisterError duplicate_msg, w).
Proof.
  intros Hv Hd He Hmob Hin Hm. rewrite handleRegister_cases, Hv, Hd. simpl.
  destruct (existing_accounts formData w) as [|x l] eqn:Ef; [|reflexivity].
  exfalso. rewrite (existing_plain formData w He Hmob) in Ef.
  pose proof (filter_nil_none _ _ u Ef Hin) as Hno.
  unfold same_identifiers in Hno.
  destruct Hm as [Hm|[Hmail Hne]].
  - rewrite Hm, String.eqb_refl in Hno.
    destruct (Js.truthy _); [rewrite orb_true_r in Hno|]; discriminate.
  - rewrite <- Hmail in Hno. apply truthy_ne in Hne.
    rewrite Hne, String.eqb_refl in Hno. discriminate.
Qed.

End DuplicateQuery.

Lemma handleRegister_writes_only_on_success_witness :
  fst (handleRegister worker_form WORKER quiet_register two_accounts)
  = Registered WORKER "Meena Rao"
  /\ same_identifiers (Js.toLowerCase (Js.trim (rf_email worker_form)))
       (Js.trim (rf_mobile worker_form)) worker_account = false.
Proof.
  assert (E : fst (handleRegister worker_form WORKER quiet_register
                     two_accounts) = Registered WORKER "Meena Rao")
    by (vm_compute; reflexivity).
  pose proof (@handleRegister_writes_only_on_success eq_store eq_store_lawful
                worker_form WORKER quiet_register two_accounts) as H.
  rewrite E in H. destruct H as (_ & _ & _ & _ & _ & Hnone).
  split; [exact E|].
  apply Hnone; [reflexivity | reflexivity | reflexivity | left; reflexivity].
Defined.

Lemma handleRegister_rejects_duplicate_witness :
  handleRegister ravi_again WORKER quiet_register two_accounts
  = (RegisterError
       "An account already exists with this email or mobile number.",
     two_accounts).
Proof.
  apply (@handleRegister_rejects_duplicate eq_store eq_store_lawful ravi_again
           WORKER quiet_register two_accounts worker_account
           eq_refl eq_refl eq_refl eq_refl).
  - left. reflexivity.
  - left. reflexivity.
Defined.

(** ** Registering, then logging in *)

Lemma digit_char (c : ascii) :
  is_digit c = true ->
  Js.is_space c = false /\ Js.lower_char c = c /\ c <> "@"%char.
Proof.
  destruct c as [[] [] [] [] [] [] [] []]; intros H;
    try discriminate H; repeat split; discriminate.
Qed.

Lemma digits_trimEnd (s : string) : all_digits s = true -> Js.trimEnd s = s.
Proof.
  induction s as [|c r IH]; simpl; [reflexivity|].
  intros H. apply andb_true_iff in H. destruct H as [Hc Hr].
  rewrite (IH Hr). destruct (@digit_char c Hc) as (Hs & _ & _).
  rewrite Hs. now destruct r.
Qed.

Lemma digits_clean (s : string) :
  all_digits s = true ->
  Js.trim s = s /\ Js.toLowerCase s = s /\ Js.includes s "@" = false.
Proof.
  intros H. split; [|split].
  - unfold Js.trim. destruct s as [|c r]; [reflexivity|].
    pose proof H as H'. simpl in H'. apply andb_true_iff in H'.
    destruct H' as [Hc _]. destruct (@digit_char c Hc) as (Hs & _ & _).
    simpl Js.trimStart. rewrite Hs. now apply digits_trimEnd.
  - induction s as [|c r IH]; simpl; [reflexivity|].
    simpl in H. apply andb_true_iff in H. destruct H as [Hc Hr].
    destruct (@digit_char c Hc) as (_ & Hl & _). now rewrite Hl, IH.
  - induction s as [|c r IH]; [reflexivity|].
    simpl in H. apply andb_true_iff in H. destruct H as [Hc Hr].
    destruct (@digit_char c Hc) as (_ & _ & Hat).
    cbn [Js.includes String.prefix]. rewrite (IH Hr).
    destruct (ascii_dec "@" c); [congruence | reflexivity].
Qed.

Lemma trimStart_app (a b : string) (x : ascii) :
  Js.is_space x = false ->
  Js.trimStart (a ++ String x b) = Js.trimStart a ++ String x b.
Proof.
  intros Hx. induction a as [|c a IH]; simpl; [now rewrite Hx|].
  now destruct (Js.is_space c).
Qed.

Lemma trimEnd_app (a b : string) (x : ascii) :
  Js.is_space x = false ->
  Js.trimEnd (a ++ String x b) = a ++ String x (Js.trimEnd b).
Proof.
  intros Hx. induction a as [|c a IH]; simpl.
  - destruct (Js.trimEnd b); [now rewrite Hx | reflexivity].
  - rewrite IH. now destruct a.
Qed.

Lemma includes_at_clean (e : string) :
  Js.includes e "@" = true ->
  Js.includes (Js.toLowerCase (Js.trim e)) "@" = true.
Proof.
  rewrite !includes_substring. intros [a [b ->]].
  exists (Js.toLowerCase (Js.trimStart a)), (Js.toLowerCase (Js.trimEnd b)).
  unfold Js.trim. cbn [String.append].
  rewrite trimStart_app, trimEnd_app by reflexivity.
  now rewrite toLowerCase_append.
Qed.

Lemma includes_truthy (s needle : string) :
  Js.truthy needle = true -> Js.includes s needle = true -> Js.truthy s = true.
Proof.
  intros Hn Hi. destruct s; [|reflexivity].
  now rewrite includes_empty_hay in Hi.
Qed.

(** The cleaned identifier a valid form registers under, and the accounts
    it selects. *)
Lemma login_identifier_clean (formData : RegisterForm) (r : UserRole) :
  snd (validation formData r) = true ->
  let cleanId := Js.toLowerCase (Js.trim (login_identifier formData r)) in
  match r with
  | WORKER => cleanId = Js.trim (rf_mobile formData)
              /\ Js.includes cleanId "@" = false
  | ADMIN => cleanId = Js.toLowerCase (Js.trim (rf_email formData))
             /\ Js.includes cleanId "@" = true
  end.
Proof.
  intros Hv. destruct (validation_spec formData r) as [Hspec _].
  apply Hspec in Hv. destruct Hv as (_ & Hrole & _).
  destruct r; cbv zeta; simpl login_identifier.
  - unfold ten_digits in Hrole. apply andb_true_iff in Hrole.
    destruct Hrole as [_ Hd].
    destruct (@digits_clean _ Hd) as (Ht & Hl & Hat).
    now rewrite Ht, Hl.
  - destruct Hrole as [_ Hat]. split; [reflexivity|].
    now apply includes_at_clean.
Qed.

Lemma digits_plain (s : string) : all_digits s = true -> plain s = true.
Proof.
  induction s as [|c r IH]; simpl; [reflexivity|].
  intros H. apply andb_true_iff in H. destruct H as [Hc Hr].
  rewrite (IH Hr), andb_true_r. revert Hc.
  destruct c as [[] [] [] [] [] [] [] []]; intros Hc;
    try discriminate Hc; reflexivity.
Qed.

Lemma no_duplicate_no_match (formData : RegisterForm) (r : UserRole)
    (users : list UserProfile) :
  snd (validation formData r) = true ->
  filter (same_identifiers (Js.toLowerCase (Js.trim (rf_email formData)))
                           (Js.trim (rf_mobile formData))) users = [] ->
  let cleanId := Js.toLowerCase (Js.trim (login_identifier formData r)) in
  filter (fun u => if Js.includes cleanId "@"
                   then String.eqb (email u) cleanId
                   else String.eqb (mobile u) cleanId) users = [].
Proof.
  intros Hv Hnone. cbv zeta.
  pose proof (@login_identifier_clean formData r Hv) as Hc. cbv zeta in Hc.
  apply filter_none. intros u Hu.
  pose proof (filter_nil_none _ _ u Hnone Hu) as Hd.
  unfold same_identifiers in Hd. destruct r.
  - destruct Hc as [-> ->].
    destruct (Js.truthy _); [apply orb_false_iff in Hd; tauto | exact Hd].
  - destruct Hc as [Hid Hat]. rewrite Hat, Hid.
    rewrite Hid in Hat.
    rewrite (@includes_truthy _ "@" eq_refl Hat) in Hd.
    apply orb_false_iff in Hd. tauto.
Qed.

Section RoundTrip.

Context {S : Postgrest}.
Hypothesis store_lawful : lawful S.

(** X23: registering and logging in round-trip: after a registration that
    succeeded with the duplicate query answered, the cleaned email being
    plain (letters, digits, at sign, dot, underscore, hyphen) and, for an
    admin, the trimmed mobile too, logging in on the portal of the
    registered role, with the mobile (worker) or email (admin) as typed in
    the form and the password typed there, succeeds with that role and the
    registered name. *)
Theorem register_then_login (formData : RegisterForm) (r : UserRole)
    (net : RegisterNetwork) (w w' : World) (n : string) :
  handleRegister formData r net w = (Registered r n, w') ->
  duplicate_fault net = None ->
  plain (Js.toLowerCase (Js.trim (rf_email formData))) = true ->
  (r = ADMIN -> plain (Js.trim (rf_mobile formData)) = true) ->
  handleAuth (portal_of r) (login_identifier formData r)
    (rf_password formData) None w'
  = (LoggedIn r n, w').
Proof.
  rewrite handleRegister_cases. intros H Hd He Hmob. rewrite Hd in H.
  destruct (snd (validation formData r)) eqn:Hv; simpl in H; [|discriminate].
  destruct (existing_accounts formData w) as [|x l] eqn:Ef; [|discriminate].
  destruct (insert_fault net); [discriminate|].
  injection H as <- <-.
  pose proof (@login_identifier_clean formData r Hv) as Hc. cbv zeta in Hc.
  assert (Hm : plain (Js.trim (rf_mobile formData)) = true).
  { destruct r; [|now apply Hmob].
    destruct (validation_spec formData WORKER) as [Hspec _].
    apply Hspec in Hv. destruct Hv as (_ & Hten & _).
    unfold ten_digits in Hten. apply andb_true_iff in Hten.
    destruct Hten as [_ Hdig].
    destruct (@digits_clean _ Hdig) as (Ht & _ & _). rewrite Ht.
    now apply digits_plain. }
  assert (Hid : plain (Js.toLowerCase
                         (Js.trim (login_identifier formData r))) = true).
  { destruct r; destruct Hc as [-> _]; assumption. }
  rewrite (existing_plain store_lawful formData w He Hm) in Ef.
  assert (Hone : matching_accounts (login_identifier formData r)
                   (set_users
                      (tbl_users w ++ [new_account formData r net])%list w)
                 = [new_account formData r net]).
  { rewrite (matching_plain store_lawful _ _ Hid).
    unfold accounts_of. cbv zeta. cbn [tbl_users set_users].
    rewrite filter_app, (@no_duplicate_no_match formData r (tbl_users w) Hv Ef).
    simpl. destruct r; destruct Hc as [Hclean Hat]; rewrite Hat, Hclean;
      cbn [email mobile new_account]; now rewrite String.eqb_refl. }
  rewrite (@handleAuth_first_match _ _ _ (rf_password formData) _ _ _ Hone).
  unfold verdict. cbn [role new_account is_active password_hash name].
  rewrite String.eqb_refl. now destruct r.
Qed.

End RoundTrip.

Lemma register_then_login_witness :
  handleAuth portal_worker "9123456780" "hunter22" None
    (snd (handleRegister worker_form WORKER quiet_register two_accounts))
  = (LoggedIn WORKER "Meena Rao",
     snd (handleRegister worker_form WORKER quiet_register two_accounts)).
Proof.
  apply (@register_then_login eq_store eq_store_lawful worker_form WORKER
           quiet_register two_accounts
           (snd (handleRegister worker_form WORKER quiet_register two_accounts))
           "Meena Rao");
    [vm_compute; reflexivity | reflexivity | reflexivity
    | intros _; reflexivity].
Defined.

(** ** Unique identifiers *)

Lemma filter_key_unique {A} (f : A -> string) (x : string) (l : list A) :
  NoDup (map f l) ->
  (List.length (filter (fun u => String.eqb (f u) x) l) <= 1)%nat.
Proof.
  induction l as [|u l IH]; simpl; intros Hnd; [lia|].
  inversion Hnd as [|? ? Hnotin Hnd']; subst.
  destruct (String.eqb_spec (f u) x) as [Heq|Hne]; [|now apply IH].
  rewrite filter_none; [simpl; lia|].
  intros y Hy. destruct (String.eqb_spec (f y) x) as [Hy'|]; [|reflexivity].
  exfalso. apply Hnotin. rewrite Heq, <- Hy'. now apply in_map.
Qed.

Lemma filter_email_unique (x : string) (l : list UserProfile) :
  Js.truthy x = true ->
  NoDup (filter Js.truthy (map email l)) ->
  (List.length (filter (fun u => String.eqb (email u) x) l) <= 1)%nat.
Proof.
  intros Hx. induction l as [|u l IH]; simpl; intros Hnd; [lia|].
  destruct (String.eqb_spec (email u) x) as [Heq|Hne].
  - rewrite Heq, Hx in Hnd.
    inversion Hnd as [|? ? Hnotin Hnd']; subst.
    rewrite filter_none; [simpl; lia|].
    intros y Hy. destruct (String.eqb_spec (email y) (email u)) as [Hy'|];
      [|reflexivity].
    exfalso. apply Hnotin. apply filter_In. split; [|exact Hx].
    rewrite <- Hy'. now apply in_map.
  - apply IH. destruct (Js.truthy (email u)); [|exact Hnd].
    now inversion Hnd.
Qed.

Lemma unique_accounts_of (identifier : string) (w : World) :
  unique_identifiers (tbl_users w) ->
  (List.length (accounts_of identifier w) <= 1)%nat.
Proof.
  intros [Hm He]. unfold accounts_of.
  destruct (Js.includes (Js.toLowerCase (Js.trim identifier)) "@") eqn:Eat.
  - apply filter_email_unique; [|exact He].
    now apply includes_truthy with (needle := "@").
  - now apply (filter_key_unique mobile).
Qed.


Section UniqueIdentifiers.

Context {S : Postgrest}.
Hypothesis store_lawful : lawful S.


(** X25: in a store whose accounts have unique identifiers, a login with a
    plain cleaned identifier (letters, digits, at sign, dot, underscore,
    hyphen) matches at most one account: either none, and the answer is
    not-found, or exactly one, the only account whose email or mobile equals
    the identifier, and the verifications run on it. *)
Theorem handleAuth_unique_match (portal : Portal)
    (identifier password : string) (w : World) :
  unique_identifiers (tbl_users w) ->
  plain (Js.toLowerCase (Js.trim identifier)) = true ->
  accounts_of identifier w = []
  /\ handleAuth portal identifier password None w
     = (AuthError not_found_msg, w)
  \/ exists user,
       accounts_of identifier w = [user]
       /\ handleAuth portal identifier password None w
          = (verdict portal password user, w).
Proof.
  intros Hu Hp. pose proof (unique_accounts_of identifier w Hu) as Hlen.
  pose proof (matching_plain store_lawful identifier w Hp) as Hm.
  destruct (accounts_of identifier w) as [|user [|u2 rest]] eqn:Em.
  - left. split; [reflexivity | now apply handleAuth_no_match].
  - right. exists user. split; [reflexivity|].
    now apply handleAuth_first_match with (rest := []).
  - simpl in Hlen. lia.
Qed.

End UniqueIdentifiers.

Lemma two_accounts_unique : unique_identifiers (tbl_users two_accounts).
Proof.
  split; simpl; repeat constructor; simpl; intuition discriminate.
Qed.


Lemma handleAuth_unique_match_witness :
  exists user,
    accounts_of "9876543210" two_accounts = [user]
    /\ handleAuth portal_worker "9876543210" "secret1" None two_accounts
       = (verdict portal_worker "secret1" user, two_accounts).
Proof.
  destruct (@handleAuth_unique_match eq_store eq_store_lawful portal_worker
              "9876543210" "secret1" two_accounts two_accounts_unique eq_refl)
    as [[Hnone _]|Hone].
  - discriminate Hnone.
  - exact Hone.
Defined.
